(** * Verification of the seismic dashboard script (src/12.py)

    The script is one top-to-bottom run: an HTTP GET, a status check, the
    construction and cleaning of a pandas table, a magnitude filter chosen
    with a slider, and four charts.  The development below embeds that run
    as a program in a small state-and-exception monad over

    - a table type with labelled rows and named columns ([DataFrame]),
    - the interface of NumPy's random generator ([RandomState]),
    - the scalar coercions of pandas ([Coercions]),
    - the outside world of one run ([World]): the server, the clock and the
      position of the slider.

    Numbers are rationals ([Q]): a floating-point value of the script is
    read as the rational it denotes and its arithmetic as exact.  A missing
    value (None, NaN, NaT) is [NA].  Instants are integers counting
    microseconds since the epoch, the resolution of Python's [datetime]. *)

From Stdlib Require Import QArith Qminmax ZArith String Ascii List Lia Lqa.
From Stdlib Require Import Sorting.Sorted Sorting.Permutation Sorting.Mergesort Orders.
From stdpp Require Import base option list gmap strings.

Open Scope string_scope.
Open Scope Z_scope.

(** ** Cells, rows and tables *)

(** One cell of a table.  [Datetime] carries microseconds since the epoch. *)
Inductive cell : Type :=
| NA
| Num (q : Q)
| Str (s : string)
| Bool (b : bool)
| Datetime (us : Z).

Definition isna (v : cell) : bool :=
  match v with NA => true | _ => false end.

Definition is_numeric (v : cell) : bool :=
  match v with Num _ => true | _ => false end.


(** A row keeps its index label, which is the only identity a record has. *)
Record row : Type := Row { label : nat; cells : gmap string cell }.

Record DataFrame : Type := Df { columns : gset string; rows : list row }.

(** Reading a cell: a key the row does not hold reads as missing, as pandas
    fills it when the table is built from records with different keys. *)
Definition at_ (r : row) (c : string) : cell := default NA (cells r !! c).

Definition upd (c : string) (r : row) (v : cell) : row :=
  Row (label r) (<[c := v]> (cells r)).

(** [pd.DataFrame(datos)]: one row per record, labelled by position; the
    columns are the keys that occur in some record. *)
Definition pd_DataFrame (datos : list (gmap string cell)) : DataFrame :=
  Df (⋃ (dom <$> datos)) (imap Row datos).

Definition has_col (c : string) (df : DataFrame) : bool :=
  bool_decide (c ∈ columns df).

(** [df.shape[0]] *)
Definition shape0 (df : DataFrame) : nat := length (rows df).

(** The values of column [c], row by row. *)
Definition col (c : string) (df : DataFrame) : list cell :=
  (λ r, at_ r c) <$> rows df.

Definition labels (df : DataFrame) : list nat := label <$> rows df.

(** [df[c] = vals] *)
Definition set_col (c : string) (vals : list cell) (df : DataFrame) : DataFrame :=
  Df (columns df ∪ {[c]}) (zip_with (upd c) (rows df) vals).

(** [df.rename(columns={old: new}, inplace=True)]; a name that is not a
    column is ignored.  A column already called [new] is replaced, where
    pandas would keep two columns under one name; the API sends neither
    [Latitud] nor [Longitud]. *)
Definition rename_row (old new : string) (r : row) : row :=
  Row (label r) (<[new := at_ r old]> (delete old (cells r))).

Definition rename_col (old new : string) (df : DataFrame) : DataFrame :=
  if has_col old df
  then Df (columns df ∖ {[old]} ∪ {[new]}) (rename_row old new <$> rows df)
  else df.

(** [df[mask]] for a mask computed row by row. *)
Definition select (p : row → bool) (df : DataFrame) : DataFrame :=
  Df (columns df) (List.filter p (rows df)).

(** [series >= x]: a missing value compares false. *)
Definition cell_ge (v : cell) (x : Q) : bool :=
  match v with Num q => Qle_bool x q | _ => false end.

(** [df.dropna(subset=cs)] *)
Definition dropna (cs : list string) (df : DataFrame) : DataFrame :=
  select (λ r, forallb (λ c, negb (isna (at_ r c))) cs) df.

(** [df.head()] *)
Definition head (df : DataFrame) : DataFrame :=
  Df (columns df) (take 5 (rows df)).

(** [series * k] on a numeric column. *)
Definition cell_mul (v : cell) (k : Q) : cell :=
  match v with Num q => Num (q * k) | _ => NA end.

(** ** Calendar dates: [strftime('%Y-%m-%d %H:%M:%S')] *)

Definition timedelta_days (d : Z) : Z := d * 86400 * 1000000.

Definition digit (d : Z) : ascii := ascii_of_nat (48 + Z.to_nat (d mod 10)).

Fixpoint zpad (width : nat) (n : Z) : string :=
  match width with
  | O => ""
  | S w => zpad w (n / 10) ++ String (digit n) ""
  end.

(** Year, month and day of a day number counted from 1970-01-01. *)
Definition civil_from_days (days : Z) : Z * Z * Z :=
  let z := days + 719468 in
  let era := z / 146097 in
  let doe := z - era * 146097 in
  let yoe := (doe - doe / 1460 + doe / 36524 - doe / 146096) / 365 in
  let doy := doe - (365 * yoe + yoe / 4 - yoe / 100) in
  let mp := (5 * doy + 2) / 153 in
  let d := doy - (153 * mp + 2) / 5 + 1 in
  let m := if mp <? 10 then mp + 3 else mp - 9 in
  let y := yoe + era * 400 in
  (if m <=? 2 then y + 1 else y, m, d).

Definition strftime (us : Z) : string :=
  let secs := us / 1000000 in
  let '(y, m, d) := civil_from_days (secs / 86400) in
  let sod := secs mod 86400 in
  zpad 4 y ++ "-" ++ zpad 2 m ++ "-" ++ zpad 2 d ++ " " ++
  zpad 2 (sod / 3600) ++ ":" ++ zpad 2 (sod / 60 mod 60) ++ ":" ++ zpad 2 (sod mod 60).

(** [series.dt.strftime(...)]: a missing instant stays missing. *)
Definition dt_strftime (v : cell) : cell :=
  match v with Datetime us => Str (strftime us) | _ => NA end.

(** ** Series reductions used by the charts *)

(** [series.dropna()] *)
Definition series_dropna (l : list cell) : list cell :=
  List.filter (λ v, negb (isna v)) l.

(** [series.value_counts().sort_index()]: one entry per distinct number, in
    increasing order, with the number of its occurrences. *)
Fixpoint count_into (q : Q) (acc : list (Q * nat)) : list (Q * nat) :=
  match acc with
  | [] => [(q, 1%nat)]
  | (p, n) :: acc' =>
      match (q ?= p)%Q with
      | Lt => (q, 1%nat) :: acc
      | Eq => (p, S n) :: acc'
      | Gt => (p, n) :: count_into q acc'
      end
  end.

Definition value_counts_sort_index (l : list cell) : list (Q * nat) :=
  fold_left (λ acc v, match v with Num q => count_into q acc | _ => acc end) l [].

(** [df.groupby(key)[val].mean()]: rows whose key is missing form no group;
    the mean skips missing values and is missing when nothing is left. *)
Definition accumulate (v : cell) (a : Q * nat) : Q * nat :=
  match v with Num q => ((a.1 + q)%Q, S a.2) | _ => a end.

Fixpoint group_into (k : string) (v : cell) (acc : list (string * (Q * nat)))
  : list (string * (Q * nat)) :=
  match acc with
  | [] => [(k, accumulate v (0%Q, O))]
  | (k', a) :: acc' =>
      match Stdlib.Strings.String.compare k k' with
      | Lt => (k, accumulate v (0%Q, O)) :: acc
      | Eq => (k', accumulate v a) :: acc'
      | Gt => (k', a) :: group_into k v acc'
      end
  end.

Definition mean (a : Q * nat) : cell :=
  match a.2 with
  | O => NA
  | S _ => Num (a.1 / inject_Z (Z.of_nat a.2))
  end.

Definition groupby_mean (key val : string) (df : DataFrame) : list (string * cell) :=
  (λ ka, (ka.1, mean ka.2)) <$>
  fold_left (λ acc r, match at_ r key with
                      | Str k => group_into k (at_ r val) acc
                      | _ => acc
                      end) (rows df) [].

(** ** [df.sort_values(key)]

    Rows are ordered by the text of the key column, rows with a missing key
    last.  pandas does not promise the relative order of rows with equal
    keys; the merge sort below settles on one, and no statement further
    down depends on which. *)
Definition key_leb (a b : cell) : bool :=
  match a, b with
  | Str s, Str t => Stdlib.Strings.String.leb s t
  | _, Str _ => false
  | _, _ => true
  end.

Lemma key_leb_total a b : key_leb a b = true ∨ key_leb b a = true.
Proof.
  destruct a, b; simpl; auto.
  apply Stdlib.Strings.String.leb_total.
Qed.

Module FechaOrder <: TotalLeBool.
Definition t : Type := row.
Definition leb (a b : row) : bool := key_leb (at_ a "Fecha") (at_ b "Fecha").
Lemma leb_total a b : leb a b = true ∨ leb b a = true.
Proof. apply key_leb_total. Qed.
End FechaOrder.

Module FechaSort := Sort FechaOrder.

Definition sort_values_Fecha (df : DataFrame) : DataFrame :=
  Df (columns df) (FechaSort.sort (rows df)).

(** ** The outside of the script *)

(** NumPy's global generator, by the contract of the two calls the script
    makes: [random_sample] lies in [0, 1) and [randint lo hi] in [lo, hi). *)
Class RandomState (G : Type) : Type := {
  random_sample : G → Q * G;
  randint : Z → Z → G → Z * G;
  random_sample_range g :
    (0 <= (random_sample g).1)%Q ∧ ((random_sample g).1 < 1)%Q;
  randint_range lo hi g : lo < hi → lo ≤ (randint lo hi g).1 < hi
}.

(** The coercions of pandas.  [pd.to_numeric(errors='coerce')] converts
    each value on its own.  [pd.to_datetime(errors='coerce')] may settle on
    a format from the column before it reads the values, so it is taken on
    the whole column; it returns one result per value.  [None] is a value
    that does not parse. *)
Class Coercions : Type := {
  to_numeric_scalar : cell → option Q;
  to_datetime : list cell → list (option Z);
  to_datetime_length l : length (to_datetime l) = length l
}.

(** What [requests.get] meets.  A body is a list of flat JSON objects, as
    the API sends it; [None] stands for a body that does not decode to
    one. *)
Inductive HttpResult : Type :=
| ConnectionFailed
| Response (status_code : Z) (body : option (list (gmap string cell))).

(** What one run meets: the server, the clock and where the user left the
    slider ([None]: untouched). *)
Record World : Type := {
  server : string → HttpResult;
  clock : Z;
  slider_at : option Q
}.

Inductive Exn : Type :=
| RequestException
| JSONDecodeError
| KeyError (c : string).

(** What the run shows or sends, in order. *)
Inductive Event : Type :=
| ev_get (url : string)
| ev_title (s : string)
| ev_header (s : string)
| ev_text (s : string)
| ev_table (df : DataFrame)
| ev_describe (df : DataFrame)
| ev_warning (s : string)
| ev_error (s : string)
| ev_slider (lbl : string) (min_value max_value value : Q)
| ev_pydeck_chart (data : DataFrame)
| ev_bar_chart (data : list (Q * nat))
| ev_line_chart (data : list (string * cell))
| ev_scatter_chart (data : DataFrame).

(** The two tables the script holds. *)
Record Store : Type := { df_sismos : DataFrame; sismos_filtrados : DataFrame }.

(** ** The script *)

Definition URL : string := "https://api.gael.cloud/general/public/sismos".

(** Approximate bounding box of Chile (lines 36-37). *)
Definition lat_min : Q := -55.
Definition lat_max : Q := -17.5.
Definition lon_min : Q := -75.
Definition lon_max : Q := -66.

Definition msg_error : string := "Error al conectar con la API.".
Definition msg_ok : string := "Conexión exitosa con la API.".
Definition msg_sin_coordenadas : string :=
  "No se encontraron las columnas de latitud y longitud en los datos. Creando ubicaciones aleatorias dentro de Chile.".
Definition msg_sin_fecha : string :=
  "No se encontró la columna de fecha. Generando fechas recientes aleatorias para los sismos.".
Definition lbl_slider : string :=
  "Selecciona una magnitud mínima para visualizar los sismos".

(** [st.slider(label, min_value, max_value, value)] returns [value] until the
    user moves the handle; the widget offers no position outside
    [min_value, max_value], which is written here as pinning the position
    to the nearest end. *)
Definition slider_value (min_value max_value value : Q) (pos : option Q) : Q :=
  match pos with
  | None => value
  | Some x => Qmax min_value (Qmin max_value x)
  end.

(** State of a run: the generator and what was shown or sent so far. *)
Record St (G : Type) : Type := { gen : G; ui : list Event }.
Arguments gen {G} _.
Arguments ui {G} _.

(** A step reads the world, may change the state, and returns a value or
    raises. *)
Definition M (G : Type) (A : Type) : Type := World → St G → (Exn + A) * St G.

#[global] Instance M_ret {G : Type} : MRet (M G) := λ A a _ s, (inr a, s).
#[global] Instance M_bind {G : Type} : MBind (M G) := λ A B f m w s,
  match m w s with
  | (inl e, s') => (inl e, s')
  | (inr a, s') => f a w s'
  end.

Definition raise {G A : Type} (e : Exn) : M G A := λ _ s, (inl e, s).

Definition emit {G : Type} (e : Event) : M G unit :=
  λ _ s, (inr (), {| gen := gen s; ui := ui s ++ [e] |}).

Section Script.
Context {G : Type} `{!RandomState G} `{!Coercions}.

(** *** Library calls *)

Definition st_title s : M G unit := emit (ev_title s).
Definition st_header s : M G unit := emit (ev_header s).
Definition st_write s : M G unit := emit (ev_text s).
Definition st_write_df df : M G unit := emit (ev_table df).
Definition st_warning s : M G unit := emit (ev_warning s).
Definition st_error s : M G unit := emit (ev_error s).

Definition widget_value (min_value max_value value : Q) : M G Q :=
  λ w s, (inr (slider_value min_value max_value value (slider_at w)), s).

Definition st_slider (lbl : string) (min_value max_value value : Q) : M G Q :=
  emit (ev_slider lbl min_value max_value value);;
  widget_value min_value max_value value.

(** [requests.get(url)]: the request goes out, then either a response
    comes back or the call raises. *)
Definition receive (url : string) : M G (Z * option (list (gmap string cell))) :=
  λ w s, match server w url with
         | ConnectionFailed => (inl RequestException, s)
         | Response code body => (inr (code, body), s)
         end.

Definition requests_get (url : string) : M G (Z * option (list (gmap string cell))) :=
  emit (ev_get url);;
  receive url.

(** [respuesta.json()] *)
Definition json (body : option (list (gmap string cell)))
  : M G (list (gmap string cell)) :=
  match body with
  | Some datos => mret datos
  | None => raise JSONDecodeError
  end.

Definition datetime_now : M G Z := λ w s, (inr (clock w), s).

(** [np.random.uniform(low, high, n)] *)
Fixpoint uniform (low high : Q) (n : nat) (g : G) : list Q * G :=
  match n with
  | O => ([], g)
  | S n' =>
      let '(u, g1) := random_sample g in
      let '(us, g2) := uniform low high n' g1 in
      ((low + (high - low) * u)%Q :: us, g2)
  end.

Definition np_random_uniform (low high : Q) (n : nat) : M G (list Q) :=
  λ _ s, let '(xs, g) := uniform low high n (gen s) in
         (inr xs, {| gen := g; ui := ui s |}).

(** [np.random.randint(low, high)] *)
Definition np_random_randint (low high : Z) : M G Z :=
  λ _ s, let '(k, g) := randint low high (gen s) in
         (inr k, {| gen := g; ui := ui s |}).

(** [df[c]]: raises when [c] is not a column. *)
Definition getitem (c : string) (df : DataFrame) : M G (list cell) :=
  if has_col c df then mret (col c df) else raise (KeyError c).

Definition pd_to_numeric (v : cell) : cell :=
  match to_numeric_scalar v with Some q => Num q | None => NA end.

Definition instant (o : option Z) : cell :=
  match o with Some t => Datetime t | None => NA end.

Definition pd_to_datetime (series : list cell) : list cell :=
  instant <$> to_datetime series.

(** *** Cleaning (lines 29-58) *)

(** The list comprehension of line 53. *)
Fixpoint fechas_recientes (start_date : Z) (n : nat) : M G (list Z) :=
  match n with
  | O => mret []
  | S n' =>
      k ← np_random_randint 0 30;
      rest ← fechas_recientes start_date n';
      mret ((start_date + timedelta_days k) :: rest)
  end.

(** Lines 32-44. *)
Definition fill_coordinates (df : DataFrame) : M G DataFrame :=
  if negb (has_col "lat" df) || negb (has_col "lon" df) then
    st_warning msg_sin_coordenadas;;
    lats ← np_random_uniform lat_min lat_max (shape0 df);
    let df := set_col "Latitud" (Num <$> lats) df in
    lons ← np_random_uniform lon_min lon_max (shape0 df);
    mret (set_col "Longitud" (Num <$> lons) df)
  else
    mret (rename_col "lon" "Longitud" (rename_col "lat" "Latitud" df)).

(** Line 47. *)
Definition numeric_magnitude (df : DataFrame) : M G DataFrame :=
  magnitud ← getitem "Magnitud" df;
  mret (set_col "Magnitud" (pd_to_numeric <$> magnitud) df).

(** Lines 50-55. *)
Definition fill_dates (df : DataFrame) : M G DataFrame :=
  if negb (has_col "Fecha" df) then
    st_warning msg_sin_fecha;;
    now ← datetime_now;
    let start_date := now - timedelta_days 30 in
    fechas ← fechas_recientes start_date (shape0 df);
    mret (set_col "Fecha" (Datetime <$> fechas) df)
  else
    fecha ← getitem "Fecha" df;
    mret (set_col "Fecha" (pd_to_datetime fecha) df).

(** Line 58. *)
Definition format_dates (df : DataFrame) : M G DataFrame :=
  fecha ← getitem "Fecha" df;
  mret (set_col "Fecha" (dt_strftime <$> fecha) df).

Definition cleaning (datos_sismos : list (gmap string cell)) : M G DataFrame :=
  df ← fill_coordinates (pd_DataFrame datos_sismos);
  df ← numeric_magnitude df;
  df ← fill_dates df;
  format_dates df.

(** *** Summary (lines 60-66) *)

Definition statistics (df : DataFrame) : M G unit :=
  st_write "Últimos sismos registrados:";;
  st_write_df (head df);;
  st_header "Estadísticas Generales";;
  emit (ev_describe df).

(** *** Filter (lines 69-73) *)

Definition filtering (df : DataFrame) : M G (Q * Store) :=
  magnitud_min ← st_slider lbl_slider 0 10 4;
  let filtrados := select (λ r, cell_ge (at_ r "Magnitud") magnitud_min) df in
  let filtrados := dropna ["Latitud"; "Longitud"] filtrados in
  mret (magnitud_min, {| df_sismos := df; sismos_filtrados := filtrados |}).

(** *** Charts (lines 76-127) *)

Definition scatter_data (df : DataFrame) : DataFrame :=
  Df {["Longitud"; "Latitud"; "Magnitud"]}
     ((λ r, Row (label r)
                {[ "Longitud" := at_ r "Longitud";
                   "Latitud" := at_ r "Latitud";
                   "Magnitud" := cell_mul (at_ r "Magnitud") 10 ]}) <$> rows df).

Definition rendering (σ : Store) : M G Store :=
  st_header "Visualización en 3D de Sismos";;
  emit (ev_pydeck_chart (sismos_filtrados σ));;
  st_header "Distribución de Frecuencia por Magnitud";;
  magnitud ← getitem "Magnitud" (df_sismos σ);
  let magnitud_counts := value_counts_sort_index (series_dropna magnitud) in
  emit (ev_bar_chart magnitud_counts);;
  st_header "Magnitud de Sismos a lo Largo del Tiempo";;
  let σ := {| df_sismos := sort_values_Fecha (df_sismos σ);
              sismos_filtrados := sismos_filtrados σ |} in
  let magnitudes_por_fecha := groupby_mean "Fecha" "Magnitud" (df_sismos σ) in
  emit (ev_line_chart magnitudes_por_fecha);;
  st_header "Ubicaciones de Sismos con Magnitud";;
  emit (ev_scatter_chart (scatter_data (df_sismos σ)));;
  mret σ.

(** *** The whole script *)

(** Lines 25-73: from the response to the two tables. *)
Definition prepare (body : option (list (gmap string cell))) : M G Store :=
  st_write msg_ok;;
  datos_sismos ← json body;
  df ← cleaning datos_sismos;
  statistics df;;
  '(_, σ) ← filtering df;
  mret σ.

(** Lines 130-144. *)
Definition closing : M G unit :=
  st_header "Análisis de las Gráficas";;
  st_write "Mapa 3D de Columnas; Distribución de Frecuencia; Magnitud a lo Largo del Tiempo; Ubicaciones de Sismos y sus Magnitudes.";;
  st_header "Conclusiones";;
  st_write "Los sismos ocurren con frecuencia en todo el territorio de Chile.".

(** Lines 25-144, the branch taken on status 200. *)
Definition dashboard (body : option (list (gmap string cell))) : M G (option Store) :=
  σ ← prepare body;
  σ ← rendering σ;
  closing;;
  mret (Some σ).

Definition preamble : M G unit :=
  st_title "Aplicación Sismos :D";;
  st_header "Descripción de los datos";;
  st_write "Esta aplicación muestra los últimos sismos ocurridos, obtenidos de una API pública.".

Definition script : M G (option Store) :=
  preamble;;
  respuesta ← requests_get URL;
  if respuesta.1 =? 200 then
    dashboard respuesta.2
  else
    st_error msg_error;;
    mret None.

Definition run (w : World) (g : G) : (Exn + option Store) * St G :=
  script w {| gen := g; ui := [] |}.

End Script.

(** ** A concrete generator and concrete coercions

    Used to run the script on examples: a linear congruential generator,
    and coercions that read plain decimals and instants written as
    [YYYY-MM-DD HH:MM:SS], the shapes the API uses. *)
Module Sample.

Definition modulus : Z := 2147483648.

Definition lcg_next (s : Z) : Z := (1103515245 * s + 12345) mod modulus.

Definition lcg_sample (s : Z) : Q * Z :=
  (Qmake (lcg_next s) 2147483648, lcg_next s).

Definition lcg_randint (lo hi s : Z) : Z * Z :=
  (lo + lcg_next s mod (hi - lo), lcg_next s).

Lemma lcg_next_bound s : 0 ≤ lcg_next s < modulus.
Proof. apply Z.mod_pos_bound. reflexivity. Qed.

Lemma lcg_sample_range s :
  (0 <= (lcg_sample s).1)%Q ∧ ((lcg_sample s).1 < 1)%Q.
Proof.
  pose proof (lcg_next_bound s) as Hb. unfold modulus in Hb.
  unfold lcg_sample, Qle, Qlt. simpl. lia.
Qed.

Lemma lcg_randint_range lo hi s : lo < hi → lo ≤ (lcg_randint lo hi s).1 < hi.
Proof.
  intros Hlt. unfold lcg_randint. simpl.
  pose proof (Z.mod_pos_bound (lcg_next s) (hi - lo)). lia.
Qed.

#[export] Instance lcg : RandomState Z := {|
  random_sample := lcg_sample;
  randint := lcg_randint;
  random_sample_range := lcg_sample_range;
  randint_range := lcg_randint_range
|}.

(** Reading decimals such as [4.5] or [-33]. *)
Definition digit_of (a : ascii) : option Z :=
  let n := Z.of_nat (nat_of_ascii a) in
  if (48 <=? n) && (n <=? 57) then Some (n - 48) else None.

Fixpoint read_digits (s : string) : list Z * string :=
  match s with
  | EmptyString => ([], s)
  | String a s' =>
      match digit_of a with
      | Some d => let '(ds, rest) := read_digits s' in (d :: ds, rest)
      | None => ([], s)
      end
  end.

Definition number_of (ds : list Z) : Z := fold_left (λ a d, 10 * a + d) ds 0.

Definition read_unsigned (s : string) : option Q :=
  match read_digits s with
  | ([], _) => None
  | (ip, EmptyString) => Some (inject_Z (number_of ip))
  | (ip, String "." frac) =>
      match read_digits frac with
      | (fp, EmptyString) =>
          Some (Qmake (number_of (ip ++ fp)) (Z.to_pos (10 ^ Z.of_nat (length fp))))
      | _ => None
      end
  | _ => None
  end.

Definition read_decimal (s : string) : option Q :=
  match s with
  | String "-" s' => Qopp <$> read_unsigned s'
  | _ => read_unsigned s
  end.

(** Reading [YYYY-MM-DD HH:MM:SS]. *)
Definition days_from_civil (y m d : Z) : Z :=
  let y' := if m <=? 2 then y - 1 else y in
  let era := y' / 400 in
  let yoe := y' - era * 400 in
  let doy := (153 * (if 2 <? m then m - 3 else m + 9) + 2) / 5 + d - 1 in
  let doe := yoe * 365 + yoe / 4 - yoe / 100 + doy in
  era * 146097 + doe - 719468.

Definition field (s : string) (pos len : nat) : option Z :=
  match read_digits (substring pos len s) with
  | (ds, EmptyString) =>
      if Nat.eqb (length ds) len then Some (number_of ds) else None
  | _ => None
  end.

Definition read_instant (s : string) : option Z :=
  if negb (Nat.eqb (String.length s) 19) then None else
  if negb (String.eqb (substring 4 1 s ++ substring 7 1 s ++ substring 10 1 s ++
                       substring 13 1 s ++ substring 16 1 s) "-- ::") then None else
  y ← field s 0 4; m ← field s 5 2; d ← field s 8 2;
  hh ← field s 11 2; mm ← field s 14 2; ss ← field s 17 2;
  if (1 <=? m) && (m <=? 12) && (1 <=? d) && (d <=? 31) &&
     (hh <? 24) && (mm <? 60) && (ss <? 60)
  then Some ((days_from_civil y m d * 86400 + hh * 3600 + mm * 60 + ss) * 1000000)
  else None.

Definition read_cell_instant (v : cell) : option Z :=
  match v with
  | Datetime t => Some t
  | Str s => read_instant s
  | _ => None
  end.

#[export] Instance coercions : Coercions := {|
  to_numeric_scalar v :=
    match v with
    | Num q => Some q
    | Str s => read_decimal s
    | Bool b => Some (if b then 1%Q else 0%Q)
    | _ => None
    end;
  to_datetime l := read_cell_instant <$> l;
  to_datetime_length l := length_fmap read_cell_instant l
|}.

End Sample.

(** ** Vocabulary of the statements *)

Open Scope list_scope.

Definition is_get (e : Event) : bool :=
  match e with ev_get _ => true | _ => false end.

Definition is_error (e : Event) : bool :=
  match e with ev_error _ => true | _ => false end.

Definition is_chart (e : Event) : bool :=
  match e with
  | ev_pydeck_chart _ | ev_bar_chart _ | ev_line_chart _ | ev_scatter_chart _ => true
  | _ => false
  end.

(** An event that is neither a request, nor an error message, nor a chart. *)
Definition plain (e : Event) : Prop :=
  is_get e = false ∧ is_error e = false ∧ is_chart e = false.

(** A step only adds events, all of them satisfying [P]. *)
Definition emits {G A : Type} (P : Event → Prop) (m : M G A) : Prop :=
  ∀ w s, ∃ evs, ui (m w s).2 = ui s ++ evs ∧ Forall P evs.


(** A record with both coordinates present. *)
Definition has_coordinates (r : row) : bool :=
  negb (isna (at_ r "Latitud")) && negb (isna (at_ r "Longitud")).

(** The filter as the specification words it: magnitude at least the
    threshold, latitude and longitude both present. *)
Definition passes (magnitud_min : Q) (r : row) : bool :=
  match at_ r "Magnitud" with
  | Num q => Qle_bool magnitud_min q
  | _ => false
  end && has_coordinates r.

(** The value a record of the response holds under a key. *)
Definition raw (c : string) (m : gmap string cell) : cell := default NA (m !! c).


(** What every run shows before it sends the request (lines 9-17). *)
Definition shown_first : list Event :=
  [ ev_title "Aplicación Sismos :D";
    ev_header "Descripción de los datos";
    ev_text "Esta aplicación muestra los últimos sismos ocurridos, obtenidos de una API pública." ].

(** What lines 76-127 show, in order, for the tables of [σ]. *)
Definition shown_by_rendering (σ : Store) : list Event :=
  [ ev_header "Visualización en 3D de Sismos";
    ev_pydeck_chart (sismos_filtrados σ);
    ev_header "Distribución de Frecuencia por Magnitud";
    ev_bar_chart (value_counts_sort_index (series_dropna (col "Magnitud" (df_sismos σ))));
    ev_header "Magnitud de Sismos a lo Largo del Tiempo";
    ev_line_chart (groupby_mean "Fecha" "Magnitud" (sort_values_Fecha (df_sismos σ)));
    ev_header "Ubicaciones de Sismos con Magnitud";
    ev_scatter_chart (scatter_data (sort_values_Fecha (df_sismos σ))) ].

(** Date order of two rows, a missing date last. *)
Definition by_fecha (a b : row) : Prop :=
  key_leb (at_ a "Fecha") (at_ b "Fecha") = true.

(** What lines 130-144 show. *)
Definition shown_last : list Event :=
  [ ev_header "Análisis de las Gráficas";
    ev_text "Mapa 3D de Columnas; Distribución de Frecuencia; Magnitud a lo Largo del Tiempo; Ubicaciones de Sismos y sus Magnitudes.";
    ev_header "Conclusiones";
    ev_text "Los sismos ocurren con frecuencia en todo el territorio de Chile." ].

(** What lines 61-69 show for the cleaned table [df]. *)
Definition shown_by_summary (df : DataFrame) : list Event :=
  [ ev_text "Últimos sismos registrados:";
    ev_table (head df);
    ev_header "Estadísticas Generales";
    ev_describe df;
    ev_slider lbl_slider 0 10 4 ].

Definition is_map (e : Event) : bool :=
  match e with ev_pydeck_chart _ => true | _ => false end.


(** How often the number [q] occurs in a column. *)
Definition occurrences (q : Q) (l : list cell) : nat :=
  length (List.filter (λ v, match v with Num x => Qeq_bool x q | _ => false end) l).

(** The count a frequency table gives to [q]. *)
Definition count_of (q : Q) (t : list (Q * nat)) : nat :=
  list_sum (List.map snd (List.filter (λ e : Q * nat, Qeq_bool e.1 q) t)).

(** The main table a run ends with, or how it ended without one. *)
Definition main_table (x : Exn + option Store) : Exn + option DataFrame :=
  match x with
  | inl e => inl e
  | inr o => inr (df_sismos <$> o)
  end.

(** ** Example responses *)
Module Examples.
Import Sample.

Definition sismo (fecha magnitud lugar : string) : gmap string cell :=
  {[ "Fecha" := Str fecha; "Magnitud" := Str magnitud; "RefGeografica" := Str lugar ]}.


Definition world (code : Z) (datos : list (gmap string cell)) (pos : option Q) : World :=
  {| server := λ _, Response code (Some datos);
     clock := 1700000000123456;
     slider_at := pos |}.

(** Two events as the API lists them, newest first. *)
Definition datos_dos : list (gmap string cell) :=
  [ sismo "2024-05-02 10:00:00" "3.0" "Socaire";
    sismo "2024-05-01 09:00:00" "5.1" "Tongoy" ].



(** Latitudes only, and no dates. *)
Definition datos_solo_lat : list (gmap string cell) :=
  [ {[ "Magnitud" := Str "3.0"; "lat" := Num (-23.5) ]};
    {[ "Magnitud" := Str "5.1"; "lat" := Num (-30.3) ]} ].

(** A run with seed 7 that has just sent its request, and one that has
    shown nothing yet. *)
Definition s_get : St Z := {| gen := 7; ui := shown_first ++ [ev_get URL] |}.
Definition s_nil : St Z := {| gen := 7; ui := [] |}.

(** The tables of a step that returned. *)
Definition tables (x : (Exn + Store) * St Z) : Store :=
  match x.1 with
  | inr σ => σ
  | inl _ => {| df_sismos := Df ∅ []; sismos_filtrados := Df ∅ [] |}
  end.

Definition prepared_dos : (Exn + Store) * St Z :=
  prepare (Some datos_dos) (world 200 datos_dos None) s_get.


(** A response in which no record has a magnitude. *)
Definition datos_sin_columna : list (gmap string cell) :=
  [ {[ "Fecha" := Str "2024-05-02 10:00:00"; "RefGeografica" := Str "Socaire" ]} ].

(** A cleaned table of three records, the second without a longitude. *)
Definition tabla_limpia : DataFrame :=
  pd_DataFrame
    [ {[ "Magnitud" := Num 3; "Latitud" := Num (-23.5); "Longitud" := Num (-68.2) ]};
      {[ "Magnitud" := Num 6; "Latitud" := Num (-30.3) ]};
      {[ "Magnitud" := Num 5.1; "Latitud" := Num (-33.4); "Longitud" := Num (-70.6) ]} ].


End Examples.

(** * Properties *)

(** ** Tables *)

Lemma at_upd_eq c r v : at_ (upd c r v) c = v.
Proof. unfold at_, upd. simpl. by rewrite lookup_insert_eq. Qed.

Lemma at_upd_ne c c' r v : c ≠ c' → at_ (upd c r v) c' = at_ r c'.
Proof. intros Hne. unfold at_, upd. simpl. by rewrite lookup_insert_ne. Qed.

Lemma at_rename_new old new r : at_ (rename_row old new r) new = at_ r old.
Proof. unfold at_ at 1, rename_row. simpl. by rewrite lookup_insert_eq. Qed.

Lemma at_rename_other old new c r :
  c ≠ old → c ≠ new → at_ (rename_row old new r) c = at_ r c.
Proof.
  intros Ho Hn. unfold at_, rename_row. simpl.
  rewrite lookup_insert_ne by done. by rewrite lookup_delete_ne.
Qed.

Lemma shape0_set_col c vals df :
  length vals = shape0 df → shape0 (set_col c vals df) = shape0 df.
Proof.
  unfold shape0, set_col. simpl. intros Hlen.
  rewrite length_zip_with. lia.
Qed.

Lemma col_zip_eq c (rs : list row) (vs : list cell) :
  length vs = length rs → (λ r, at_ r c) <$> zip_with (upd c) rs vs = vs.
Proof.
  revert vs. induction rs as [|r rs IH]; intros [|v vs] Hlen; simpl in *; try done.
  rewrite at_upd_eq. f_equal. apply IH. lia.
Qed.

Lemma col_zip_ne c c' (rs : list row) (vs : list cell) :
  c ≠ c' → length vs = length rs →
  (λ r, at_ r c') <$> zip_with (upd c) rs vs = (λ r, at_ r c') <$> rs.
Proof.
  intros Hne. revert vs.
  induction rs as [|r rs IH]; intros [|v vs] Hlen; simpl in *; try done.
  rewrite at_upd_ne by done. f_equal. apply IH. lia.
Qed.

Lemma label_zip c (rs : list row) (vs : list cell) :
  length vs = length rs → label <$> zip_with (upd c) rs vs = label <$> rs.
Proof.
  revert vs. induction rs as [|r rs IH]; intros [|v vs] Hlen; simpl in *; try done.
  f_equal. apply IH. lia.
Qed.

Lemma col_set_col_eq c vals df :
  length vals = shape0 df → col c (set_col c vals df) = vals.
Proof. apply col_zip_eq. Qed.

Lemma col_set_col_ne c c' vals df :
  c ≠ c' → length vals = shape0 df → col c' (set_col c vals df) = col c' df.
Proof. apply col_zip_ne. Qed.

Lemma labels_set_col c vals df :
  length vals = shape0 df → labels (set_col c vals df) = labels df.
Proof. apply label_zip. Qed.

Lemma has_col_set_col c c' vals df :
  has_col c' (set_col c vals df) = has_col c' df || bool_decide (c' = c).
Proof.
  unfold has_col, set_col. simpl.
  rewrite <- bool_decide_or. apply bool_decide_ext.
  by rewrite elem_of_union, elem_of_singleton.
Qed.

Lemma length_col c df : length (col c df) = shape0 df.
Proof. unfold col, shape0. by rewrite length_fmap. Qed.

Lemma shape0_rename old new df : shape0 (rename_col old new df) = shape0 df.
Proof.
  unfold rename_col, shape0. destruct (has_col old df); simpl; [|done].
  by rewrite length_fmap.
Qed.

Lemma labels_rename old new df : labels (rename_col old new df) = labels df.
Proof.
  unfold rename_col, labels. destruct (has_col old df); simpl; [|done].
  rewrite <- list_fmap_compose. done.
Qed.

Lemma shape0_pd_DataFrame datos : shape0 (pd_DataFrame datos) = length datos.
Proof. unfold shape0, pd_DataFrame. simpl. by rewrite length_imap. Qed.

Lemma labels_pd_DataFrame datos : labels (pd_DataFrame datos) = seq 0 (length datos).
Proof.
  unfold labels, pd_DataFrame. simpl.
  rewrite fmap_imap. unfold compose. simpl.
  apply list_eq. intros i. rewrite list_lookup_imap.
  destruct (datos !! i) as [m|] eqn:Hi; simpl.
  - symmetry. apply lookup_seq. split; [done|]. by eapply lookup_lt_Some.
  - symmetry. apply lookup_seq_ge. by apply lookup_ge_None.
Qed.

Lemma col_pd_DataFrame c datos :
  col c (pd_DataFrame datos) = (λ m : gmap string cell, default NA (m !! c)) <$> datos.
Proof.
  unfold col, pd_DataFrame. simpl. rewrite fmap_imap.
  apply list_eq. intros i. rewrite list_lookup_imap, list_lookup_fmap.
  by destruct (datos !! i).
Qed.

Lemma has_col_pd_DataFrame c datos :
  has_col c (pd_DataFrame datos) = true ↔ ∃ m, m ∈ datos ∧ is_Some (m !! c).
Proof.
  unfold has_col, pd_DataFrame. simpl. rewrite bool_decide_eq_true.
  rewrite elem_of_union_list. split.
  - intros (X & HX & Hc). apply list_elem_of_fmap in HX as (m & -> & Hm).
    exists m. split; [done|]. by apply elem_of_dom.
  - intros (m & Hm & Hc). exists (dom m). split.
    + apply list_elem_of_fmap. eauto.
    + by apply elem_of_dom.
Qed.

Lemma col_rename_new old new df :
  has_col old df = true → col new (rename_col old new df) = col old df.
Proof.
  intros Hold. unfold rename_col, col. rewrite Hold. simpl.
  rewrite <- list_fmap_compose. apply list_fmap_ext. intros i r _. simpl.
  apply at_rename_new.
Qed.

Lemma col_rename_other old new c df :
  c ≠ old → c ≠ new → col c (rename_col old new df) = col c df.
Proof.
  intros Ho Hn. unfold rename_col, col. destruct (has_col old df); simpl; [|done].
  rewrite <- list_fmap_compose. apply list_fmap_ext. intros i r _. simpl.
  by apply at_rename_other.
Qed.

Lemma has_col_rename_other old new c df :
  c ≠ old → c ≠ new → has_col c (rename_col old new df) = has_col c df.
Proof.
  intros Ho Hn. unfold rename_col. destruct (has_col old df) eqn:Hold; [|done].
  unfold has_col. simpl. apply bool_decide_ext.
  rewrite elem_of_union, elem_of_difference, !elem_of_singleton.
  split; [intros [[? _]| ->]|intros ?]; tauto.
Qed.

Lemma has_col_set_col_mono c c' vals df :
  has_col c' df = true → has_col c' (set_col c vals df) = true.
Proof. intros Hc. rewrite has_col_set_col, Hc. done. Qed.

Lemma has_col_set_col_ne c c' vals df :
  c ≠ c' → has_col c' (set_col c vals df) = has_col c' df.
Proof.
  intros Hne. rewrite has_col_set_col.
  rewrite (bool_decide_eq_false_2 (c' = c)) by congruence.
  by rewrite orb_false_r.
Qed.

Lemma has_col_set_col_eq c vals df : has_col c (set_col c vals df) = true.
Proof. rewrite has_col_set_col. rewrite (bool_decide_eq_true_2 (c = c)) by done. by rewrite orb_true_r. Qed.

Lemma elem_of_col r c df : r ∈ rows df → at_ r c ∈ col c df.
Proof. intros Hr. unfold col. apply list_elem_of_fmap. eauto. Qed.





Lemma filter_filter_and {A : Type} (p q : A → bool) (l : list A) :
  List.filter p (List.filter q l) = List.filter (λ x, q x && p x) l.
Proof.
  induction l as [|x l IH]; simpl; [done|].
  destruct (q x); simpl; [|done]. destruct (p x); by rewrite IH.
Qed.

Lemma rows_dropna_select t df :
  rows (dropna ["Latitud"; "Longitud"]
          (select (λ r, cell_ge (at_ r "Magnitud") t) df)) =
  List.filter (passes t) (rows df).
Proof.
  unfold dropna, select. simpl. rewrite filter_filter_and.
  apply List.filter_ext. intros r. unfold passes, has_coordinates, cell_ge. simpl.
  by rewrite andb_true_r.
Qed.

Lemma passes_iff t r :
  passes t r = true ↔
  (∃ q, at_ r "Magnitud" = Num q ∧ (t <= q)%Q) ∧
  at_ r "Latitud" ≠ NA ∧ at_ r "Longitud" ≠ NA.
Proof.
  unfold passes, has_coordinates. rewrite !andb_true_iff, !negb_true_iff.
  split.
  - intros (Hm & Hla & Hlo). split; [|split].
    + destruct (at_ r "Magnitud") as [|q| | |]; try done.
      exists q. split; [done|]. by apply Qle_bool_iff.
    + by destruct (at_ r "Latitud").
    + by destruct (at_ r "Longitud").
  - intros ((q & -> & Hq) & Hla & Hlo). split; [|split].
    + by apply Qle_bool_iff.
    + by destruct (at_ r "Latitud").
    + by destruct (at_ r "Longitud").
Qed.

Lemma slider_value_range lo hi v pos :
  (lo <= hi)%Q → (lo <= v)%Q → (v <= hi)%Q →
  (lo <= slider_value lo hi v pos)%Q ∧ (slider_value lo hi v pos <= hi)%Q.
Proof.
  intros Hlh Hlv Hvh. destruct pos as [x|]; simpl; [|done]. split.
  - apply Q.le_max_l.
  - apply Q.max_lub; [done|apply Q.le_min_l].
Qed.

Lemma slider_value_inside lo hi v x :
  (lo <= x)%Q → (x <= hi)%Q → (slider_value lo hi v (Some x) == x)%Q.
Proof.
  intros Hlx Hxh. simpl.
  rewrite Q.max_r by (by apply Q.min_glb; [eapply Qle_trans|]).
  by apply Q.min_r.
Qed.

(** ** Steps of the script *)

Section Properties.
Context {G : Type} `{!RandomState G} `{!Coercions}.

Lemma bind_run {A B : Type} (m : M G A) (f : A → M G B) w s :
  (m ≫= f) w s =
  match m w s with
  | (inl e, s') => (inl e, s')
  | (inr a, s') => f a w s'
  end.
Proof. reflexivity. Qed.

(** *** Events added by each step *)

Lemma emits_ret {A : Type} P (a : A) : emits P (mret a : M G A).
Proof. intros w s. exists []. split; [by rewrite app_nil_r|constructor]. Qed.

Lemma emits_raise {A : Type} P e : emits P (raise e : M G A).
Proof. intros w s. exists []. split; [by rewrite app_nil_r|constructor]. Qed.

Lemma emits_emit (P : Event → Prop) e : P e → emits P (emit e : M G unit).
Proof. intros He w s. exists [e]. split; [done|by constructor]. Qed.

Lemma emits_bind {A B : Type} P (m : M G A) (f : A → M G B) :
  emits P m → (∀ a, emits P (f a)) → emits P (m ≫= f).
Proof.
  intros Hm Hf w s. rewrite bind_run.
  destruct (Hm w s) as (evs & Hui & Hall).
  destruct (m w s) as [[e|a] s1] eqn:Hrun; simpl in *.
  - exists evs. done.
  - destruct (Hf a w s1) as (evs' & Hui' & Hall').
    exists (evs ++ evs'). split.
    + rewrite Hui', Hui. by rewrite app_assoc.
    + by apply Forall_app.
Qed.

Lemma emits_weaken {A : Type} (P Q : Event → Prop) (m : M G A) :
  (∀ e, P e → Q e) → emits P m → emits Q m.
Proof.
  intros HPQ Hm w s. destruct (Hm w s) as (evs & Hui & Hall).
  exists evs. split; [done|]. eapply Forall_impl; eauto.
Qed.

Lemma emits_silent {A : Type} P (m : M G A) :
  (∀ w s, ui (m w s).2 = ui s) → emits P m.
Proof.
  intros Hm w s. exists []. split; [by rewrite app_nil_r, Hm|constructor].
Qed.

Lemma emits_widget_value P a b c : emits P (widget_value a b c : M G Q).
Proof. by apply emits_silent. Qed.

Lemma emits_receive P url : emits P (receive url : M G _).
Proof.
  apply emits_silent. intros w s. unfold receive. by destruct (server w url).
Qed.

Lemma emits_datetime_now P : emits P (datetime_now : M G Z).
Proof. by apply emits_silent. Qed.

Lemma emits_uniform P lo hi n : emits P (np_random_uniform lo hi n).
Proof.
  apply emits_silent. intros w s. unfold np_random_uniform.
  by destruct (uniform lo hi n (gen s)).
Qed.

Lemma emits_randint P lo hi : emits P (np_random_randint lo hi).
Proof.
  apply emits_silent. intros w s. unfold np_random_randint.
  by destruct (randint lo hi (gen s)).
Qed.

Lemma emits_getitem P c df : emits P (getitem c df : M G _).
Proof.
  unfold getitem. destruct (has_col c df); [apply emits_ret|apply emits_raise].
Qed.

Lemma emits_json P body : emits P (json body : M G _).
Proof. destruct body; [apply emits_ret|apply emits_raise]. Qed.

Lemma emits_fechas_recientes P start n : emits P (fechas_recientes start n).
Proof.
  induction n as [|n IH]; simpl.
  - apply emits_ret.
  - apply emits_bind; [apply emits_randint|]. intros k.
    apply emits_bind; [apply IH|]. intros rest. apply emits_ret.
Qed.

Ltac emits_step :=
  first
    [ apply emits_ret | apply emits_raise | apply emits_widget_value
    | apply emits_receive | apply emits_datetime_now | apply emits_uniform
    | apply emits_randint | apply emits_getitem | apply emits_json
    | apply emits_fechas_recientes
    | (apply emits_emit; by repeat split)
    | (apply emits_bind; [|intros ?])
    | match goal with
      | |- emits _ (if ?b then _ else _) => destruct b
      | |- emits _ (match ?x with (_, _) => _ end) => destruct x
      end ].

Ltac emits_auto :=
  unfold st_title, st_header, st_write, st_write_df, st_warning, st_error,
    st_slider, requests_get;
  repeat emits_step.

Lemma emits_fill_coordinates df : emits plain (fill_coordinates df : M G _).
Proof. unfold fill_coordinates. emits_auto. Qed.

Lemma emits_numeric_magnitude df : emits plain (numeric_magnitude df : M G _).
Proof. unfold numeric_magnitude. emits_auto. Qed.

Lemma emits_fill_dates df : emits plain (fill_dates df : M G _).
Proof. unfold fill_dates. emits_auto. Qed.

Lemma emits_format_dates df : emits plain (format_dates df : M G _).
Proof. unfold format_dates. emits_auto. Qed.

Lemma emits_cleaning datos : emits plain (cleaning datos : M G _).
Proof.
  unfold cleaning.
  apply emits_bind; [apply emits_fill_coordinates|intros df1].
  apply emits_bind; [apply emits_numeric_magnitude|intros df2].
  apply emits_bind; [apply emits_fill_dates|intros df3].
  apply emits_format_dates.
Qed.

Lemma emits_statistics df : emits plain (statistics df : M G _).
Proof. unfold statistics. emits_auto. Qed.

Lemma emits_filtering df : emits plain (filtering df : M G _).
Proof. unfold filtering. emits_auto. Qed.

Lemma emits_rendering σ :
  emits (λ e, is_get e = false ∧ is_error e = false) (rendering σ : M G _).
Proof. unfold rendering. emits_auto. Qed.

Lemma plain_quiet e : plain e → is_get e = false ∧ is_error e = false.
Proof. intros (? & ? & ?). done. Qed.

Lemma emits_prepare body : emits plain (prepare body : M G _).
Proof.
  unfold prepare.
  apply emits_bind; [emits_auto|intros _].
  apply emits_bind; [emits_auto|intros datos].
  apply emits_bind; [apply emits_cleaning|intros df].
  apply emits_bind; [apply emits_statistics|intros _].
  apply emits_bind; [apply emits_filtering|intros [t σ]].
  apply emits_ret.
Qed.

Lemma emits_closing : emits plain (closing : M G _).
Proof. unfold closing. emits_auto. Qed.

Lemma emits_dashboard body :
  emits (λ e, is_get e = false ∧ is_error e = false) (dashboard body : M G _).
Proof.
  unfold dashboard.
  apply emits_bind;
    [eapply emits_weaken; [apply plain_quiet|apply emits_prepare]|intros σ].
  apply emits_bind; [apply emits_rendering|intros σ'].
  apply emits_bind;
    [eapply emits_weaken; [apply plain_quiet|apply emits_closing]|intros _].
  apply emits_ret.
Qed.

Lemma emits_preamble : emits plain (preamble : M G _).
Proof. unfold preamble. emits_auto. Qed.

(** *** The request and the status check *)

Lemma filter_none {A : Type} (p : A → bool) (l : list A) :
  Forall (λ x, p x = false) l → List.filter p l = [].
Proof.
  induction 1 as [|x l Hx _ IH]; simpl; [done|]. by rewrite Hx.
Qed.

Lemma run_unfold w g :
  run w g =
  let s := {| gen := g; ui := shown_first ++ [ev_get URL] |} in
  match server w URL with
  | ConnectionFailed => (inl RequestException, s)
  | Response code body =>
      if code =? 200 then dashboard body w s
      else (inr None, {| gen := g; ui := ui s ++ [ev_error msg_error] |})
  end.
Proof.
  unfold run, script, preamble, requests_get, receive, st_title, st_header,
    st_write, st_error, emit, mbind, M_bind, mret, M_ret.
  simpl.
  destruct (server w URL) as [|code body]; simpl; [done|].
  destruct (code =? 200); reflexivity.
Qed.

(** C8: whatever the server does, a run sends exactly one request, and it
    goes to the fixed address. *)
Theorem one_request_per_run w g :
  List.filter is_get (ui (run w g).2) = [ev_get URL].
Proof.
  rewrite run_unfold. cbv zeta.
  destruct (server w URL) as [|code body]; [reflexivity|].
  destruct (code =? 200); [|reflexivity].
  destruct (emits_dashboard body w {| gen := g; ui := shown_first ++ [ev_get URL] |})
    as (evs & -> & Hevs).
  simpl. f_equal. apply filter_none.
  eapply Forall_impl; [exact Hevs|]. by intros e [? _].
Qed.

(** C7: a response whose status is not 200 makes the run show the error
    message right after the request and stop there: no table is built,
    the generator is untouched, nothing else is shown.  On status 200 no
    error message is shown, however the run ends. *)
Theorem status_check_only_error_branch w g code body :
  server w URL = Response code body →
  (code ≠ 200 →
     run w g = (inr None, {| gen := g;
                             ui := shown_first ++ [ev_get URL; ev_error msg_error] |}))
  ∧ (code = 200 → Forall (λ e, is_error e = false) (ui (run w g).2)).
Proof.
  intros Hsrv. rewrite run_unfold, Hsrv. cbv zeta. split.
  - intros Hne. apply Z.eqb_neq in Hne. rewrite Hne. reflexivity.
  - intros ->. rewrite Z.eqb_refl.
    destruct (emits_dashboard body w {| gen := g; ui := shown_first ++ [ev_get URL] |})
      as (evs & -> & Hevs).
    apply Forall_app. split.
    + simpl. repeat constructor.
    + eapply Forall_impl; [exact Hevs|]. by intros e [_ ?].
Qed.

(** *** The generator *)

Lemma uniform_length lo hi n g : length (uniform lo hi n g).1 = n.
Proof.
  revert g. induction n as [|n IH]; intros g; simpl; [done|].
  destruct (random_sample g) as [u g1].
  specialize (IH g1). destruct (uniform lo hi n g1) as [us g2].
  simpl in *. by rewrite IH.
Qed.


Lemma np_random_uniform_run lo hi n w s :
  np_random_uniform lo hi n w s =
  (inr (uniform lo hi n (gen s)).1,
   {| gen := (uniform lo hi n (gen s)).2; ui := ui s |}).
Proof. unfold np_random_uniform. by destruct (uniform lo hi n (gen s)). Qed.

Lemma fechas_recientes_run start n w s :
  ∃ ks g',
    fechas_recientes start n w s =
      (inr ((λ k, start + timedelta_days k) <$> ks), {| gen := g'; ui := ui s |}) ∧
    length ks = n ∧ Forall (λ k, 0 ≤ k < 30) ks.
Proof.
  revert s. induction n as [|n IH]; intros s; simpl.
  - exists [], (gen s). destruct s. done.
  - rewrite bind_run. unfold np_random_randint at 1.
    pose proof (randint_range 0 30 (gen s) eq_refl) as Hk.
    destruct (randint 0 30 (gen s)) as [k g1]. simpl in Hk.
    rewrite bind_run.
    destruct (IH {| gen := g1; ui := ui s |}) as (ks & g' & -> & Hlen & Hall).
    exists (k :: ks), g'. simpl. split; [done|]. split; [by rewrite Hlen|].
    by constructor.
Qed.

(** *** Cleaning, step by step *)

Lemma fill_coordinates_missing df w s :
  negb (has_col "lat" df) || negb (has_col "lon" df) = true →
  fill_coordinates df w s =
  (inr (set_col "Longitud"
          (Num <$> (uniform lon_min lon_max (shape0 df)
                      (uniform lat_min lat_max (shape0 df) (gen s)).2).1)
          (set_col "Latitud"
             (Num <$> (uniform lat_min lat_max (shape0 df) (gen s)).1) df)),
   {| gen := (uniform lon_min lon_max (shape0 df)
                (uniform lat_min lat_max (shape0 df) (gen s)).2).2;
      ui := ui s ++ [ev_warning msg_sin_coordenadas] |}).
Proof.
  intros Hmiss. unfold fill_coordinates. rewrite Hmiss.
  unfold st_warning, emit. rewrite !bind_run. simpl.
  rewrite np_random_uniform_run, bind_run. simpl.
  rewrite shape0_set_col by (by rewrite length_fmap, uniform_length).
  rewrite np_random_uniform_run. reflexivity.
Qed.

Lemma fill_coordinates_present df w s :
  negb (has_col "lat" df) || negb (has_col "lon" df) = false →
  (fill_coordinates df : M G _) w s =
  (inr (rename_col "lon" "Longitud" (rename_col "lat" "Latitud" df)), s).
Proof. intros Hpres. unfold fill_coordinates. by rewrite Hpres. Qed.

Lemma numeric_magnitude_run df w s :
  has_col "Magnitud" df = true →
  (numeric_magnitude df : M G _) w s =
  (inr (set_col "Magnitud" (pd_to_numeric <$> col "Magnitud" df) df), s).
Proof.
  intros Hmag. unfold numeric_magnitude, getitem. rewrite Hmag. reflexivity.
Qed.

Lemma numeric_magnitude_raises df w s :
  has_col "Magnitud" df = false →
  (numeric_magnitude df : M G _) w s = (inl (KeyError "Magnitud"), s).
Proof.
  intros Hmag. unfold numeric_magnitude, getitem. rewrite Hmag. reflexivity.
Qed.

Lemma fill_dates_present df w s :
  has_col "Fecha" df = true →
  (fill_dates df : M G _) w s =
  (inr (set_col "Fecha" (pd_to_datetime (col "Fecha" df)) df), s).
Proof.
  intros Hf. unfold fill_dates, getitem. rewrite Hf. reflexivity.
Qed.

Lemma fill_dates_missing df w s :
  has_col "Fecha" df = false →
  ∃ ks g',
    fill_dates df w s =
      (inr (set_col "Fecha"
              (Datetime <$> ((λ k, clock w - timedelta_days 30 + timedelta_days k) <$> ks))
              df),
       {| gen := g'; ui := ui s ++ [ev_warning msg_sin_fecha] |}) ∧
    length ks = shape0 df ∧ Forall (λ k, 0 ≤ k < 30) ks.
Proof.
  intros Hf. unfold fill_dates. rewrite Hf. simpl.
  unfold st_warning, emit, datetime_now. rewrite !bind_run. simpl.
  destruct (fechas_recientes_run (clock w - timedelta_days 30) (shape0 df) w
              {| gen := gen s; ui := ui s ++ [ev_warning msg_sin_fecha] |})
    as (ks & g' & Hrun & Hlen & Hall).
  rewrite Hrun. exists ks, g'. done.
Qed.

Lemma format_dates_run df w s :
  has_col "Fecha" df = true →
  (format_dates df : M G _) w s =
  (inr (set_col "Fecha" (dt_strftime <$> col "Fecha" df) df), s).
Proof.
  intros Hf. unfold format_dates, getitem. rewrite Hf. reflexivity.
Qed.

Lemma length_pd_to_datetime l : length (pd_to_datetime l) = length l.
Proof. unfold pd_to_datetime. by rewrite length_fmap, to_datetime_length. Qed.

Ltac lengths :=
  repeat first
    [ rewrite length_fmap | rewrite length_pd_to_datetime | rewrite length_col
    | rewrite uniform_length | rewrite shape0_set_col by lengths ];
  try done.

Lemma fill_coordinates_spec df w s :
  ∃ df1 s1,
    fill_coordinates df w s = (inr df1, s1) ∧
    shape0 df1 = shape0 df ∧ labels df1 = labels df ∧
    (∀ c, c ≠ "lat" → c ≠ "lon" → c ≠ "Latitud" → c ≠ "Longitud" →
          col c df1 = col c df ∧ has_col c df1 = has_col c df) ∧
    (if negb (has_col "lat" df) || negb (has_col "lon" df)
     then
       let lats := uniform lat_min lat_max (shape0 df) (gen s) in
       let lons := uniform lon_min lon_max (shape0 df) lats.2 in
       col "Latitud" df1 = Num <$> lats.1 ∧
       col "Longitud" df1 = Num <$> lons.1 ∧
       ui s1 = ui s ++ [ev_warning msg_sin_coordenadas]
     else
       col "Latitud" df1 = col "lat" df ∧ col "Longitud" df1 = col "lon" df ∧
       s1 = s).
Proof.
  destruct (negb (has_col "lat" df) || negb (has_col "lon" df)) eqn:Hb.
  - eexists _, _. split; [by apply fill_coordinates_missing|]. cbv zeta.
    split; [lengths|]. split; [rewrite !labels_set_col; lengths|].
    split.
    + intros c _ _ H1 H2. split.
      * rewrite !col_set_col_ne; lengths.
      * by rewrite !has_col_set_col_ne.
    + split; [|split]; [| |done].
      * rewrite col_set_col_ne by lengths. rewrite col_set_col_eq; lengths.
      * rewrite col_set_col_eq; lengths.
  - eexists _, _. split; [by apply fill_coordinates_present|].
    apply orb_false_iff in Hb as [Hlat Hlon].
    apply negb_false_iff in Hlat, Hlon.
    split; [by rewrite !shape0_rename|]. split; [by rewrite !labels_rename|].
    split.
    + intros c H1 H2 H3 H4. split.
      * by rewrite !col_rename_other.
      * by rewrite !has_col_rename_other.
    + split; [|split]; [| |done].
      * rewrite col_rename_other by done. by apply col_rename_new.
      * rewrite col_rename_new.
        -- by apply col_rename_other.
        -- by rewrite has_col_rename_other.
Qed.

Lemma after_coordinates_spec df1 w s1 :
  has_col "Magnitud" df1 = true →
  ∃ df s',
    (df2 ← numeric_magnitude df1; df3 ← fill_dates df2; format_dates df3) w s1
      = (inr df, s') ∧
    has_col "Magnitud" df = true ∧
    shape0 df = shape0 df1 ∧ labels df = labels df1 ∧
    (∀ c, c ≠ "Magnitud" → c ≠ "Fecha" → col c df = col c df1) ∧
    col "Magnitud" df = pd_to_numeric <$> col "Magnitud" df1 ∧
    (if has_col "Fecha" df1
     then col "Fecha" df = dt_strftime <$> pd_to_datetime (col "Fecha" df1)
     else ∃ ks, length ks = shape0 df1 ∧ Forall (λ k, 0 ≤ k < 30) ks ∧
                col "Fecha" df =
                  (λ k, Str (strftime (clock w - timedelta_days 30 + timedelta_days k)))
                    <$> ks).
Proof.
  intros Hmag. rewrite bind_run, numeric_magnitude_run by done.
  set (df2 := set_col "Magnitud" _ df1).
  assert (shape0 df2 = shape0 df1) as Hs2 by (unfold df2; lengths).
  assert (has_col "Fecha" df2 = has_col "Fecha" df1) as Hf2
    by (by apply has_col_set_col_ne).
  rewrite bind_run.
  destruct (has_col "Fecha" df1) eqn:Hf.
  - rewrite fill_dates_present by done.
    set (df3 := set_col "Fecha" _ df2).
    assert (shape0 df3 = shape0 df2) as Hs3 by (unfold df3; lengths).
    rewrite format_dates_run by apply has_col_set_col_eq.
    eexists _, _. split; [done|].
    split; [apply has_col_set_col_mono, has_col_set_col_mono, has_col_set_col_eq|].
    assert (length (dt_strftime <$> col "Fecha" df3) = shape0 df3) as Hl by lengths.
    split; [rewrite shape0_set_col by done; congruence|].
    split; [rewrite labels_set_col by done; unfold df3, df2;
            rewrite !labels_set_col; lengths|].
    split; [|split].
    + intros c Hc1 Hc2. rewrite col_set_col_ne by done.
      unfold df3. rewrite col_set_col_ne by lengths.
      unfold df2. rewrite col_set_col_ne; lengths.
    + rewrite col_set_col_ne by done.
      unfold df3. rewrite col_set_col_ne by lengths.
      unfold df2. rewrite col_set_col_eq; lengths.
    + rewrite col_set_col_eq by done.
      unfold df3. rewrite col_set_col_eq by lengths.
      unfold df2. by rewrite col_set_col_ne by lengths.
  - destruct (fill_dates_missing df2 w s1 Hf2) as (ks & g' & -> & Hlen & Hall).
    set (df3 := set_col "Fecha" _ df2).
    assert (shape0 df3 = shape0 df2) as Hs3
      by (unfold df3; rewrite shape0_set_col; lengths).
    rewrite format_dates_run by apply has_col_set_col_eq.
    eexists _, _. split; [done|].
    split; [apply has_col_set_col_mono, has_col_set_col_mono, has_col_set_col_eq|].
    assert (length (dt_strftime <$> col "Fecha" df3) = shape0 df3) as Hl by lengths.
    split; [rewrite shape0_set_col by done; congruence|].
    split; [rewrite labels_set_col by done; unfold df3;
            rewrite labels_set_col by lengths; unfold df2;
            rewrite labels_set_col; lengths|].
    split; [|split].
    + intros c Hc1 Hc2. rewrite col_set_col_ne by done.
      unfold df3. rewrite col_set_col_ne by lengths.
      unfold df2. rewrite col_set_col_ne; lengths.
    + rewrite col_set_col_ne by done.
      unfold df3. rewrite col_set_col_ne by lengths.
      unfold df2. rewrite col_set_col_eq; lengths.
    + exists ks. split; [congruence|]. split; [done|].
      rewrite col_set_col_eq by done.
      unfold df3. rewrite col_set_col_eq by lengths.
      rewrite <- !list_fmap_compose. done.
Qed.

Lemma cleaning_unfold datos w s :
  (cleaning datos : M G _) w s =
  match fill_coordinates (pd_DataFrame datos) w s with
  | (inl e, s1) => (inl e, s1)
  | (inr df1, s1) =>
      (df2 ← numeric_magnitude df1; df3 ← fill_dates df2; format_dates df3) w s1
  end.
Proof. reflexivity. Qed.

(** What cleaning returns, column by column, when the response has a
    magnitude column. *)
Lemma cleaning_spec datos w s :
  has_col "Magnitud" (pd_DataFrame datos) = true →
  ∃ df s',
    cleaning datos w s = (inr df, s') ∧
    has_col "Magnitud" df = true ∧
    shape0 df = length datos ∧
    labels df = seq 0 (length datos) ∧
    col "Magnitud" df = (pd_to_numeric ∘ raw "Magnitud") <$> datos ∧
    (if negb (has_col "lat" (pd_DataFrame datos)) || negb (has_col "lon" (pd_DataFrame datos))
     then
       let lats := uniform lat_min lat_max (length datos) (gen s) in
       let lons := uniform lon_min lon_max (length datos) lats.2 in
       col "Latitud" df = Num <$> lats.1 ∧
       col "Longitud" df = Num <$> lons.1 ∧
       ev_warning msg_sin_coordenadas ∈ ui s'
     else
       col "Latitud" df = raw "lat" <$> datos ∧
       col "Longitud" df = raw "lon" <$> datos) ∧
    (if has_col "Fecha" (pd_DataFrame datos)
     then col "Fecha" df = dt_strftime <$> pd_to_datetime (raw "Fecha" <$> datos)
     else ∃ ks, length ks = length datos ∧ Forall (λ k, 0 ≤ k < 30) ks ∧
                col "Fecha" df =
                  (λ k, Str (strftime (clock w - timedelta_days 30 + timedelta_days k)))
                    <$> ks).
Proof.
  intros Hmag. rewrite cleaning_unfold.
  set (df0 := pd_DataFrame datos) in *.
  destruct (fill_coordinates_spec df0 w s)
    as (df1 & s1 & -> & Hs1 & Hl1 & Hframe & Hcoord).
  destruct (Hframe "Magnitud") as [Hcm Hhm]; [done..|].
  destruct (Hframe "Fecha") as [Hcf Hhf]; [done..|].
  pose proof (emits_bind plain (numeric_magnitude df1 : M G _)
                (λ df2, df3 ← fill_dates df2; format_dates df3)
                (emits_numeric_magnitude df1)
                (λ df2, emits_bind plain _ _ (emits_fill_dates df2) emits_format_dates)
                w s1) as (evs & Hui & _).
  destruct (after_coordinates_spec df1 w s1)
    as (df & s' & Hrun & Hhas & Hs & Hl & Hother & Hm & Hf); [congruence|].
  rewrite Hrun in Hui |- *. simpl in Hui.
  exists df, s'. split; [done|]. split; [done|].
  assert (shape0 df0 = length datos) as Hn by apply shape0_pd_DataFrame.
  split; [congruence|].
  split; [rewrite Hl, Hl1; apply labels_pd_DataFrame|].
  split; [rewrite Hm, Hcm; unfold df0; rewrite col_pd_DataFrame;
          by rewrite list_fmap_compose|].
  split.
  - rewrite <- Hn.
    destruct (negb (has_col "lat" df0) || negb (has_col "lon" df0)).
    + cbv zeta in *. destruct Hcoord as (Hla & Hlo & Hw).
      rewrite (Hother "Latitud"), (Hother "Longitud") by done.
      split; [done|]. split; [done|].
      rewrite Hui, Hw, !elem_of_app, list_elem_of_singleton. auto.
    + destruct Hcoord as (Hla & Hlo & _).
      rewrite (Hother "Latitud"), (Hother "Longitud") by done.
      rewrite Hla, Hlo.
      unfold df0. by rewrite !col_pd_DataFrame.
  - rewrite Hhf in Hf. destruct (has_col "Fecha" df0).
    + rewrite Hf, Hcf. unfold df0. by rewrite col_pd_DataFrame.
    + destruct Hf as (ks & Hlen & Hall & Hcol).
      exists ks. split; [congruence|]. done.
Qed.

Lemma cleaning_raises datos w s :
  has_col "Magnitud" (pd_DataFrame datos) = false →
  ∃ s', (cleaning datos : M G _) w s = (inl (KeyError "Magnitud"), s').
Proof.
  intros Hmag. rewrite cleaning_unfold.
  destruct (fill_coordinates_spec (pd_DataFrame datos) w s)
    as (df1 & s1 & -> & _ & _ & Hframe & _).
  destruct (Hframe "Magnitud") as [_ Hhm]; [done..|].
  rewrite bind_run, numeric_magnitude_raises by congruence.
  by exists s1.
Qed.

(** *** Synthesized coordinates *)




(** *** Imputed dates *)



(** *** The filter *)

Lemma filtering_run df w s :
  (filtering df : M G _) w s =
  (inr (slider_value 0 10 4 (slider_at w),
        {| df_sismos := df;
           sismos_filtrados :=
             dropna ["Latitud"; "Longitud"]
               (select (λ r, cell_ge (at_ r "Magnitud")
                               (slider_value 0 10 4 (slider_at w))) df) |}),
   {| gen := gen s; ui := ui s ++ [ev_slider lbl_slider 0 10 4] |}).
Proof. reflexivity. Qed.

(** C5: the threshold comes from a slider over 0.0 .. 10.0 that starts at
    4.0, and the filtered table holds, in their order, exactly the records
    whose magnitude is at least the threshold and whose latitude and
    longitude are both present; the table it is taken from is left as it
    is. *)
Theorem filter_by_threshold df w (s : St G) :
  ∃ magnitud_min σ s',
    filtering df w s = (inr (magnitud_min, σ), s') ∧
    ui s' = ui s ++ [ev_slider lbl_slider 0 10 4] ∧
    (0 <= magnitud_min)%Q ∧ (magnitud_min <= 10)%Q ∧
    (slider_at w = None → magnitud_min = 4%Q) ∧
    (∀ x, slider_at w = Some x → (0 <= x)%Q → (x <= 10)%Q → (magnitud_min == x)%Q) ∧
    df_sismos σ = df ∧
    columns (sismos_filtrados σ) = columns df ∧
    rows (sismos_filtrados σ) = List.filter (passes magnitud_min) (rows df) ∧
    (∀ r, r ∈ rows (sismos_filtrados σ) ↔
          r ∈ rows df ∧
          (∃ q, at_ r "Magnitud" = Num q ∧ (magnitud_min <= q)%Q) ∧
          at_ r "Latitud" ≠ NA ∧ at_ r "Longitud" ≠ NA).
Proof.
  eexists _, _, _. split; [apply filtering_run|]. simpl ui. simpl df_sismos.
  split; [done|].
  destruct (slider_value_range 0 10 4 (slider_at w)) as [Hlo Hhi]; [by vm_compute..|].
  split; [done|]. split; [done|].
  split; [by intros ->|].
  split; [intros x -> ? ?; by apply slider_value_inside|].
  split; [done|]. split; [done|].
  split; [apply rows_dropna_select|].
  intros r. cbv [sismos_filtrados]. rewrite rows_dropna_select.
  rewrite list_elem_of_In, List.filter_In, <- list_elem_of_In, passes_iff. done.
Qed.

(** *** Magnitudes that do not parse *)



(** *** Charts *)

Lemma rendering_run σ w (s : St G) :
  has_col "Magnitud" (df_sismos σ) = true →
  rendering σ w s =
  (inr {| df_sismos := sort_values_Fecha (df_sismos σ);
          sismos_filtrados := sismos_filtrados σ |},
   {| gen := gen s; ui := ui s ++ shown_by_rendering σ |}).
Proof.
  intros Hmag. unfold rendering, getitem. rewrite Hmag.
  unfold st_header, emit, mbind, M_bind, mret, M_ret. simpl.
  by rewrite <- !app_assoc.
Qed.

Lemma sort_values_Fecha_spec df :
  columns (sort_values_Fecha df) = columns df ∧
  Permutation (rows df) (rows (sort_values_Fecha df)) ∧
  Sorted by_fecha (rows (sort_values_Fecha df)).
Proof.
  split; [done|]. split.
  - apply FechaSort.Permuted_sort.
  - apply FechaSort.Sorted_sort.
Qed.

Lemma prepare_unfold datos w (s : St G) :
  prepare (Some datos) w s =
  match cleaning datos w {| gen := gen s; ui := ui s ++ [ev_text msg_ok] |} with
  | (inl e, s1) => (inl e, s1)
  | (inr df, s1) =>
      (inr {| df_sismos := df;
              sismos_filtrados :=
                dropna ["Latitud"; "Longitud"]
                  (select (λ r, cell_ge (at_ r "Magnitud")
                                  (slider_value 0 10 4 (slider_at w))) df) |},
       {| gen := gen s1;
          ui := ui s1 ++ [ ev_text "Últimos sismos registrados:";
                           ev_table (head df);
                           ev_header "Estadísticas Generales";
                           ev_describe df;
                           ev_slider lbl_slider 0 10 4 ] |})
  end.
Proof.
  unfold prepare. rewrite bind_run. unfold st_write at 1, emit at 1.
  simpl json. rewrite bind_run. unfold mret at 1, M_ret at 1.
  rewrite bind_run.
  destruct (cleaning datos w _) as [[e|df] s1]; [done|].
  unfold statistics, filtering, st_slider, widget_value, st_write, st_write_df,
    st_header, emit, mbind, M_bind, mret, M_ret.
  simpl. by rewrite <- !app_assoc.
Qed.

Lemma closing_run w (s : St G) :
  ∃ evs, closing w s = (inr (), {| gen := gen s; ui := ui s ++ evs |}) ∧
         Forall plain evs.
Proof.
  eexists [_; _; _; _]. split.
  - unfold closing, st_header, st_write, emit, mbind, M_bind. simpl.
    by rewrite <- !app_assoc.
  - repeat constructor.
Qed.

Lemma prepare_keeps_magnitude body w (s : St G) σ0 s0 :
  prepare body w s = (inr σ0, s0) → has_col "Magnitud" (df_sismos σ0) = true.
Proof.
  destruct body as [datos|].
  - rewrite prepare_unfold.
    destruct (has_col "Magnitud" (pd_DataFrame datos)) eqn:Hmag.
    + destruct (cleaning_spec datos w {| gen := gen s; ui := ui s ++ [ev_text msg_ok] |} Hmag)
        as (df & s1 & -> & Hhas & _).
      by intros [= <- <-].
    + destruct (cleaning_raises datos w {| gen := gen s; ui := ui s ++ [ev_text msg_ok] |} Hmag)
        as (s1 & ->).
      done.
  - unfold prepare, st_write, emit, json, raise, mbind, M_bind. simpl. done.
Qed.

Lemma dashboard_run body w (s : St G) σ0 s0 :
  prepare body w s = (inr σ0, s0) →
  ∃ evs,
    dashboard body w s =
      (inr (Some {| df_sismos := sort_values_Fecha (df_sismos σ0);
                    sismos_filtrados := sismos_filtrados σ0 |}),
       {| gen := gen s0; ui := (ui s0 ++ shown_by_rendering σ0) ++ evs |}) ∧
    Forall plain evs.
Proof.
  intros Hprep. pose proof (prepare_keeps_magnitude _ _ _ _ _ Hprep) as Hmag.
  unfold dashboard. rewrite bind_run, Hprep, bind_run, rendering_run by done.
  rewrite bind_run.
  destruct (closing_run w {| gen := gen s0; ui := ui s0 ++ shown_by_rendering σ0 |})
    as (evs & -> & Hevs).
  exists evs. done.
Qed.

Lemma run_200 w g body :
  server w URL = Response 200 body →
  run w g = dashboard body w {| gen := g; ui := shown_first ++ [ev_get URL] |}.
Proof. intros Hsrv. by rewrite run_unfold, Hsrv. Qed.

(** C6, as the code has it: rendering adds, drops and rewrites no record
    and leaves the filtered table alone, but it sorts the main table in
    place by date.  So the records held at process exit are those held at
    the start of rendering, in date order with missing dates last. *)
Theorem rendering_only_reorders w g body σ0 s0 :
  server w URL = Response 200 body →
  prepare body w {| gen := g; ui := shown_first ++ [ev_get URL] |} = (inr σ0, s0) →
  ∃ σ s',
    run w g = (inr (Some σ), s') ∧
    sismos_filtrados σ = sismos_filtrados σ0 ∧
    columns (df_sismos σ) = columns (df_sismos σ0) ∧
    Permutation (rows (df_sismos σ0)) (rows (df_sismos σ)) ∧
    Sorted by_fecha (rows (df_sismos σ)).
Proof.
  intros Hsrv Hprep. rewrite (run_200 w g body Hsrv).
  destruct (dashboard_run _ _ _ _ _ Hprep) as (evs & -> & _).
  eexists _, _. split; [done|]. simpl.
  destruct (sort_values_Fecha_spec (df_sismos σ0)) as (? & ? & ?). done.
Qed.

(** *** The cleaned table *)



(** *** Which table each chart reads *)



(** *** Outcomes of a run *)



Lemma no_magnitude_column datos :
  (∀ m, m ∈ datos → m !! "Magnitud" = None) →
  has_col "Magnitud" (pd_DataFrame datos) = false.
Proof.
  intros Hnone. apply not_true_is_false. intros Hcol.
  apply has_col_pd_DataFrame in Hcol as (m & Hm & Hsome).
  rewrite (Hnone m Hm) in Hsome. by destruct Hsome.
Qed.

Lemma dashboard_unfold datos w (s : St G) :
  dashboard (Some datos) w s =
  match cleaning datos w {| gen := gen s; ui := ui s ++ [ev_text msg_ok] |} with
  | (inl e, s1) => (inl e, s1)
  | (inr df, s1) =>
      let σ0 := {| df_sismos := df;
                   sismos_filtrados :=
                     dropna ["Latitud"; "Longitud"]
                       (select (λ r, cell_ge (at_ r "Magnitud")
                                       (slider_value 0 10 4 (slider_at w))) df) |} in
      (σ ← rendering σ0; closing;; mret (Some σ)) w
        {| gen := gen s1; ui := ui s1 ++ shown_by_summary df |}
  end.
Proof.
  unfold dashboard. rewrite bind_run, prepare_unfold.
  by destruct (cleaning datos w _) as [[e|df] s1].
Qed.

Lemma closing_exact w (s : St G) :
  closing w s = (inr (), {| gen := gen s; ui := ui s ++ shown_last |}).
Proof.
  unfold closing, st_header, st_write, emit, mbind, M_bind. simpl.
  by rewrite <- !app_assoc.
Qed.

Lemma after_cleaning_run df w (s1 : St G) :
  has_col "Magnitud" df = true →
  let σ0 := {| df_sismos := df;
               sismos_filtrados :=
                 dropna ["Latitud"; "Longitud"]
                   (select (λ r, cell_ge (at_ r "Magnitud")
                                   (slider_value 0 10 4 (slider_at w))) df) |} in
  (σ ← rendering σ0; closing;; mret (Some σ)) w
    {| gen := gen s1; ui := ui s1 ++ shown_by_summary df |} =
  (inr (Some {| df_sismos := sort_values_Fecha df;
                sismos_filtrados := sismos_filtrados σ0 |}),
   {| gen := gen s1;
      ui := ui s1 ++ shown_by_summary df ++ shown_by_rendering σ0 ++ shown_last |}).
Proof.
  intros Hmag σ0. rewrite bind_run, rendering_run by done.
  rewrite bind_run, closing_exact. simpl.
  by rewrite <- !app_assoc.
Qed.

(** X1: a response in which no record has a magnitude makes the run raise
    at line 47, after the success message and, when a coordinate column is
    absent, the coordinate warning; no table, slider or chart is shown. *)
Theorem missing_magnitude_column_raises w g datos :
  server w URL = Response 200 (Some datos) →
  (∀ m, m ∈ datos → m !! "Magnitud" = None) →
  ∃ g',
    run w g =
    (inl (KeyError "Magnitud"),
     {| gen := g';
        ui := shown_first ++ [ev_get URL; ev_text msg_ok] ++
              (if negb (has_col "lat" (pd_DataFrame datos)) ||
                  negb (has_col "lon" (pd_DataFrame datos))
               then [ev_warning msg_sin_coordenadas] else []) |}).
Proof.
  intros Hsrv Hnone. apply no_magnitude_column in Hnone.
  rewrite (run_200 w g _ Hsrv), dashboard_unfold, cleaning_unfold.
  set (s_ok := {| gen := _; ui := _ |}).
  destruct (fill_coordinates_spec (pd_DataFrame datos) w s_ok)
    as (df1 & s1 & -> & _ & _ & Hframe & Hcoord).
  destruct (Hframe "Magnitud") as [_ Hhm]; [done..|].
  rewrite bind_run, numeric_magnitude_raises by congruence.
  exists (gen s1). f_equal. destruct s1 as [g1 u1]. simpl. f_equal.
  destruct (negb _ || negb _); simpl in Hcoord.
  - by destruct Hcoord as (_ & _ & ->).
  - by destruct Hcoord as (_ & _ & [= -> ->]).
Qed.

(** X2: an empty list of events is such a response: the run warns about
    coordinates, draws nothing from the generator, and raises. *)
Theorem empty_response_raises w g :
  server w URL = Response 200 (Some []) →
  run w g =
  (inl (KeyError "Magnitud"),
   {| gen := g;
      ui := shown_first ++
            [ev_get URL; ev_text msg_ok; ev_warning msg_sin_coordenadas] |}).
Proof.
  intros Hsrv.
  rewrite (run_200 w g _ Hsrv), dashboard_unfold, cleaning_unfold.
  rewrite fill_coordinates_missing by reflexivity.
  rewrite bind_run, numeric_magnitude_raises; [reflexivity|].
  by rewrite !has_col_set_col_ne.
Qed.

(** X3: the status check is the only failure the script reports.  A
    request that fails raises at line 21 with nothing shown after the
    introduction; a status 200 whose body does not decode raises at line 26
    after the success message has been shown.  Neither shows the error
    message, and neither touches the generator. *)
Theorem other_failures_are_raised_not_reported w g :
  (server w URL = ConnectionFailed →
   run w g =
   (inl RequestException, {| gen := g; ui := shown_first ++ [ev_get URL] |})) ∧
  (server w URL = Response 200 None →
   run w g =
   (inl JSONDecodeError,
    {| gen := g; ui := shown_first ++ [ev_get URL; ev_text msg_ok] |})).
Proof.
  split; intros Hsrv.
  - by rewrite run_unfold, Hsrv.
  - by rewrite (run_200 w g _ Hsrv).
Qed.


(** *** More on cleaning *)







(** *** More on the filter *)

Lemma filter_sublist_impl {A : Type} (p q : A → bool) (l : list A) :
  (∀ x, p x = true → q x = true) → List.filter p l `sublist_of` List.filter q l.
Proof.
  intros Hpq. induction l as [|x l IH]; simpl; [constructor|].
  destruct (p x) eqn:Hp.
  - rewrite (Hpq x Hp). by constructor.
  - destruct (q x); [by constructor|done].
Qed.

Lemma filter_sublist {A : Type} (p : A → bool) (l : list A) :
  List.filter p l `sublist_of` l.
Proof.
  induction l as [|x l IH]; simpl; [constructor|].
  destruct (p x); by constructor.
Qed.

Lemma passes_mono t1 t2 r :
  (t1 <= t2)%Q → passes t2 r = true → passes t1 r = true.
Proof.
  intros Hle. rewrite !passes_iff. intros ((q & Hq & Hge) & Hla & Hlo).
  split; [|done]. exists q. split; [done|]. by eapply Qle_trans.
Qed.

(** X9: the filtered table is the cleaned table with rows left out, in the
    same order; raising the threshold only leaves out more of them. *)
Theorem raising_the_threshold_only_removes df w1 w2 (s1 s2 : St G) t1 σ1 s1' t2 σ2 s2' :
  filtering df w1 s1 = (inr (t1, σ1), s1') →
  filtering df w2 s2 = (inr (t2, σ2), s2') →
  (t1 <= t2)%Q →
  rows (sismos_filtrados σ2) `sublist_of` rows (sismos_filtrados σ1) ∧
  rows (sismos_filtrados σ1) `sublist_of` rows df.
Proof.
  rewrite !filtering_run. intros [= <- <- _] [= <- <- _] Hle.
  cbv [sismos_filtrados]. rewrite !rows_dropna_select. split.
  - apply filter_sublist_impl. intros r. by apply passes_mono.
  - apply filter_sublist.
Qed.


(** X11: an imputed date is never today's: the offset stops at 29 days, so
    the instant is at least one day old, and it keeps the time of day of
    the clock. *)
Theorem imputed_dates_are_at_least_a_day_old datos w s :
  has_col "Fecha" (pd_DataFrame datos) = false →
  has_col "Magnitud" (pd_DataFrame datos) = true →
  ∃ df s' ts,
    cleaning datos w s = (inr df, s') ∧
    col "Fecha" df = (λ t, Str (strftime t)) <$> ts ∧
    Forall (λ t, t ≤ clock w - timedelta_days 1 ∧
                 (clock w - t) mod timedelta_days 1 = 0) ts.
Proof.
  intros Hf Hmag.
  destruct (cleaning_spec datos w s Hmag)
    as (df & s' & Hrun & _ & _ & _ & _ & _ & Hfecha).
  rewrite Hf in Hfecha. destruct Hfecha as (ks & Hlen & Hall & Hcol).
  exists df, s', ((λ k, clock w - timedelta_days 30 + timedelta_days k) <$> ks).
  split; [done|]. split; [by rewrite Hcol, <- list_fmap_compose|].
  apply Forall_fmap. eapply Forall_impl; [exact Hall|].
  intros k Hk. simpl in Hk |- *. unfold timedelta_days. split; [lia|].
  replace (clock w - (clock w - 30 * 86400 * 1000000 + k * 86400 * 1000000))
    with ((30 - k) * (1 * 86400 * 1000000)) by lia.
  apply Z.mod_mul. lia.
Qed.

(** *** More on the sort *)



(** *** The frequency table of the bar chart *)

Lemma count_into_HdRel q acc (e : Q * nat) :
  HdRel (λ a b : Q * nat, (a.1 < b.1)%Q) e acc → (e.1 < q)%Q →
  HdRel (λ a b : Q * nat, (a.1 < b.1)%Q) e (count_into q acc).
Proof.
  intros Hhd Hlt. destruct acc as [|[p n] acc']; simpl; [by constructor|].
  apply HdRel_inv in Hhd. destruct (q ?= p)%Q; by constructor.
Qed.

Lemma count_into_sorted q acc :
  Sorted (λ a b : Q * nat, (a.1 < b.1)%Q) acc →
  Sorted (λ a b : Q * nat, (a.1 < b.1)%Q) (count_into q acc).
Proof.
  induction acc as [|[p n] acc' IH]; intros Hs; simpl.
  - by repeat constructor.
  - apply Sorted_inv in Hs as [Hs Hhd].
    destruct (q ?= p)%Q eqn:Hcmp.
    + constructor; [done|]. destruct acc' as [|e acc'']; [constructor|].
      apply HdRel_inv in Hhd. by constructor.
    + constructor; [by constructor|]. constructor. simpl. by apply Qlt_alt.
    + constructor; [by apply IH|]. apply count_into_HdRel; [done|].
      simpl. by apply Qgt_alt.
Qed.

Lemma count_into_positive q acc :
  Forall (λ e : Q * nat, (0 < e.2)%nat) acc →
  Forall (λ e : Q * nat, (0 < e.2)%nat) (count_into q acc).
Proof.
  induction acc as [|[p n] acc' IH]; intros Hall; simpl.
  - repeat constructor.
  - apply Forall_cons in Hall as [Hn Hall].
    destruct (q ?= p)%Q; repeat constructor; simpl in *; auto with lia.
Qed.

Lemma Qeq_bool_left q p x : (q == p)%Q → Qeq_bool q x = Qeq_bool p x.
Proof.
  intros Heq. destruct (Qeq_bool p x) eqn:Hp.
  - apply Qeq_bool_iff in Hp. apply Qeq_bool_iff. by rewrite Heq.
  - apply not_true_is_false. intros Hq. apply Qeq_bool_iff in Hq.
    rewrite Heq in Hq. apply Qeq_bool_iff in Hq. congruence.
Qed.

Lemma count_of_count_into q x acc :
  count_of x (count_into q acc) =
  (count_of x acc + if Qeq_bool q x then 1 else 0)%nat.
Proof.
  unfold count_of. induction acc as [|[p n] acc' IH]; simpl.
  - destruct (Qeq_bool q x); simpl; lia.
  - destruct (q ?= p)%Q eqn:Hcmp; simpl.
    + apply Qeq_alt in Hcmp. rewrite (Qeq_bool_left q p x Hcmp).
      destruct (Qeq_bool p x); simpl; lia.
    + destruct (Qeq_bool q x), (Qeq_bool p x); simpl; lia.
    + destruct (Qeq_bool p x); simpl; rewrite IH; lia.
Qed.

Lemma sum_count_into q acc :
  list_sum (List.map snd (count_into q acc)) = S (list_sum (List.map snd acc)).
Proof.
  induction acc as [|[p n] acc' IH]; simpl; [done|].
  destruct (q ?= p)%Q; simpl; [done..|]. rewrite IH. lia.
Qed.

Lemma sum_value_counts l acc :
  list_sum (List.map snd
              (fold_left (λ (acc : list (Q * nat)) (v : cell),
                            match v with Num x => count_into x acc | _ => acc end)
                         l acc)) =
  (list_sum (List.map snd acc) + length (List.filter is_numeric l))%nat.
Proof.
  revert acc. induction l as [|v l IH]; intros acc; simpl; [lia|].
  rewrite IH. destruct v; simpl; rewrite ?sum_count_into; lia.
Qed.

Lemma numeric_dropna l :
  List.filter is_numeric (series_dropna l) = List.filter is_numeric l.
Proof.
  unfold series_dropna. rewrite filter_filter_and.
  apply List.filter_ext. by intros [].
Qed.

Lemma occurrences_dropna q l : occurrences q (series_dropna l) = occurrences q l.
Proof.
  unfold occurrences, series_dropna. rewrite filter_filter_and. f_equal.
  apply List.filter_ext. by intros [].
Qed.

Lemma value_counts_fold q l acc :
  let step := λ (acc : list (Q * nat)) (v : cell),
                match v with Num x => count_into x acc | _ => acc end in
  (Sorted (λ a b : Q * nat, (a.1 < b.1)%Q) acc →
   Sorted (λ a b : Q * nat, (a.1 < b.1)%Q) (fold_left step l acc)) ∧
  (Forall (λ e : Q * nat, (0 < e.2)%nat) acc →
   Forall (λ e : Q * nat, (0 < e.2)%nat) (fold_left step l acc)) ∧
  count_of q (fold_left step l acc) = (count_of q acc + occurrences q l)%nat.
Proof.
  intros step. revert acc. induction l as [|v l IH]; intros acc; simpl.
  - split; [done|]. split; [done|]. unfold occurrences. simpl. lia.
  - destruct (IH (step acc v)) as (IHs & IHp & IHc).
    split; [|split].
    + intros Hs. apply IHs. destruct v; simpl; auto using count_into_sorted.
    + intros Hp. apply IHp. destruct v; simpl; auto using count_into_positive.
    + rewrite IHc. unfold occurrences. destruct v as [|x| | |]; simpl; try lia.
      rewrite count_of_count_into. rewrite (Qeq_bool_comm x q).
      destruct (Qeq_bool q x); simpl; lia.
Qed.

(** X13: the bar chart's table (line 111) lists the magnitudes in strictly
    increasing order, so each one once, with a count of at least one; for
    every number the count is the number of records of that magnitude, and
    the counts add up to the number of records that have a magnitude. *)
Theorem magnitud_counts_spec l :
  Sorted (λ a b : Q * nat, (a.1 < b.1)%Q) (value_counts_sort_index (series_dropna l)) ∧
  Forall (λ e : Q * nat, (0 < e.2)%nat) (value_counts_sort_index (series_dropna l)) ∧
  (∀ q, count_of q (value_counts_sort_index (series_dropna l)) = occurrences q l) ∧
  list_sum (List.map snd (value_counts_sort_index (series_dropna l))) =
    length (List.filter is_numeric l).
Proof.
  unfold value_counts_sort_index.
  split; [|split; [|split]].
  - apply (value_counts_fold 0 (series_dropna l) []). constructor.
  - apply (value_counts_fold 0 (series_dropna l) []). constructor.
  - intros q. destruct (value_counts_fold q (series_dropna l) []) as (_ & _ & ->).
    by rewrite occurrences_dropna.
  - by rewrite sum_value_counts, numeric_dropna.
Qed.

(** *** The groups of the line chart *)

Lemma group_into_keys k0 v acc k :
  k ∈ (group_into k0 v acc).*1 ↔ k = k0 ∨ k ∈ acc.*1.
Proof.
  induction acc as [|[k' a] acc' IH]; simpl.
  - rewrite list_elem_of_singleton. split; [auto|].
    intros [?|Hnil]; [done|]. by apply elem_of_nil in Hnil.
  - destruct (Stdlib.Strings.String.compare k0 k') eqn:Hcmp; simpl.
    + apply Stdlib.Strings.String.compare_eq_iff in Hcmp as ->.
      rewrite !elem_of_cons. tauto.
    + rewrite !elem_of_cons. tauto.
    + rewrite !elem_of_cons, IH. tauto.
Qed.

Lemma group_into_HdRel k0 v acc (e : string * (Q * nat)) :
  HdRel (λ a b : string * (Q * nat), Stdlib.Strings.String.compare a.1 b.1 = Lt) e acc →
  Stdlib.Strings.String.compare e.1 k0 = Lt →
  HdRel (λ a b : string * (Q * nat), Stdlib.Strings.String.compare a.1 b.1 = Lt) e
        (group_into k0 v acc).
Proof.
  intros Hhd Hlt. destruct acc as [|[k' a] acc']; simpl; [by constructor|].
  apply HdRel_inv in Hhd.
  destruct (Stdlib.Strings.String.compare k0 k'); by constructor.
Qed.

Lemma group_into_sorted k0 v acc :
  Sorted (λ a b : string * (Q * nat), Stdlib.Strings.String.compare a.1 b.1 = Lt) acc →
  Sorted (λ a b : string * (Q * nat), Stdlib.Strings.String.compare a.1 b.1 = Lt)
         (group_into k0 v acc).
Proof.
  induction acc as [|[k' a] acc' IH]; intros Hs; simpl.
  - by repeat constructor.
  - apply Sorted_inv in Hs as [Hs Hhd].
    destruct (Stdlib.Strings.String.compare k0 k') eqn:Hcmp.
    + constructor; [done|]. destruct acc' as [|e acc'']; [constructor|].
      apply HdRel_inv in Hhd. by constructor.
    + constructor; [by constructor|]. by constructor.
    + constructor; [by apply IH|]. apply group_into_HdRel; [done|].
      simpl. rewrite Stdlib.Strings.String.compare_antisym, Hcmp. done.
Qed.

Lemma groups_fold key val (l : list row) acc :
  let step := λ (acc : list (string * (Q * nat))) (r : row),
                match at_ r key with
                | Str k => group_into k (at_ r val) acc
                | _ => acc
                end in
  (Sorted (λ a b : string * (Q * nat), Stdlib.Strings.String.compare a.1 b.1 = Lt) acc →
   Sorted (λ a b : string * (Q * nat), Stdlib.Strings.String.compare a.1 b.1 = Lt)
          (fold_left step l acc)) ∧
  ∀ k, k ∈ (fold_left step l acc).*1 ↔
       k ∈ acc.*1 ∨ ∃ r, r ∈ l ∧ at_ r key = Str k.
Proof.
  intros step. revert acc. induction l as [|r l IH]; intros acc; simpl.
  - split; [done|]. intros k. split; [auto|]. intros [?|(r & Hr & _)]; [done|].
    by apply elem_of_nil in Hr.
  - destruct (IH (step acc r)) as (IHs & IHk). split.
    + intros Hs. apply IHs. unfold step.
      destruct (at_ r key); auto using group_into_sorted.
    + intros k. rewrite IHk. unfold step. split.
      * intros [Hk|(r' & Hr' & Hk)].
        -- destruct (at_ r key) as [| |k0| |] eqn:Hkey; auto.
           apply group_into_keys in Hk as [->|Hk]; [|auto].
           right. exists r. split; [by left|done].
        -- right. exists r'. split; [by right|done].
      * intros [Hk|(r' & Hr' & Hk)].
        -- left. destruct (at_ r key); auto. apply group_into_keys. auto.
        -- apply elem_of_cons in Hr' as [->|Hr'].
           ++ left. rewrite Hk. apply group_into_keys. auto.
           ++ right. eauto.
Qed.

Lemma Sorted_fst_fmap {A B : Type} (f : A → B) (l : list (string * A)) :
  Sorted (λ a b : string * A, Stdlib.Strings.String.compare a.1 b.1 = Lt) l →
  Sorted (λ a b : string * B, Stdlib.Strings.String.compare a.1 b.1 = Lt)
         ((λ ka, (ka.1, f ka.2)) <$> l).
Proof.
  induction 1 as [|e l Hs IH Hhd]; simpl; [constructor|].
  constructor; [done|]. destruct Hhd; simpl; by constructor.
Qed.

(** X14: the line chart (line 117) has one point per distinct date text, in
    strictly increasing order of the text; a date is on the chart exactly
    when some record carries it, so records without a date add no point. *)
Theorem magnitudes_por_fecha_keys df :
  Sorted (λ a b : string * cell, Stdlib.Strings.String.compare a.1 b.1 = Lt)
         (groupby_mean "Fecha" "Magnitud" df) ∧
  ∀ k, k ∈ (groupby_mean "Fecha" "Magnitud" df).*1 ↔
       ∃ r, r ∈ rows df ∧ at_ r "Fecha" = Str k.
Proof.
  unfold groupby_mean.
  destruct (groups_fold "Fecha" "Magnitud" (rows df) []) as (Hs & Hk). split.
  - apply Sorted_fst_fmap, Hs. constructor.
  - intros k. rewrite <- list_fmap_compose.
    change (fst ∘ (λ ka : string * (Q * nat), (ka.1, mean ka.2))) with (@fst string (Q * nat)).
    rewrite Hk. split; [|auto]. intros [Hnil|?]; [|done]. by apply elem_of_nil in Hnil.
Qed.

(** *** What the slider can change *)

Lemma fechas_recientes_world start n w1 w2 (s : St G) :
  fechas_recientes start n w1 s = fechas_recientes start n w2 s.
Proof.
  revert s. induction n as [|n IH]; intros s; simpl; [done|].
  rewrite !bind_run. unfold np_random_randint.
  destruct (randint 0 30 (gen s)) as [k g1].
  rewrite !bind_run. by rewrite IH.
Qed.

Lemma cleaning_world datos w1 w2 (s : St G) :
  clock w1 = clock w2 → cleaning datos w1 s = cleaning datos w2 s.
Proof.
  intros Hclock. rewrite !cleaning_unfold.
  destruct (fill_coordinates_spec (pd_DataFrame datos) w1 s)
    as (df1 & s1 & Hfc1 & _).
  assert (fill_coordinates (pd_DataFrame datos) w2 s = (inr df1, s1)) as Hfc2.
  { rewrite <- Hfc1.
    destruct (negb (has_col "lat" (pd_DataFrame datos)) ||
              negb (has_col "lon" (pd_DataFrame datos))) eqn:Hb.
    - by rewrite !fill_coordinates_missing.
    - by rewrite !fill_coordinates_present. }
  rewrite Hfc1, Hfc2. rewrite !bind_run.
  destruct (has_col "Magnitud" df1) eqn:Hmag.
  - rewrite !numeric_magnitude_run by done. rewrite !bind_run.
    set (df2 := set_col "Magnitud" _ df1).
    assert (fill_dates df2 w1 s1 = fill_dates df2 w2 s1) as ->.
    2: { destruct (fill_dates df2 w2 s1) as [[e|df3] s3]; [done|].
         unfold format_dates, getitem. by destruct (has_col "Fecha" df3). }
    unfold fill_dates, getitem. destruct (has_col "Fecha" df2); [done|]. simpl.
    unfold st_warning, emit, datetime_now. rewrite !bind_run. simpl.
    rewrite Hclock.
    by rewrite (fechas_recientes_world _ _ w1 w2).
  - by rewrite !numeric_magnitude_raises.
Qed.

(** X15: the position of the slider changes nothing but the map: two runs
    that differ only in it show the same things apart from the column map,
    leave the generator in the same state, and end the same way, with the
    same main table. *)
Theorem slider_changes_only_the_map w1 w2 g :
  server w1 URL = server w2 URL →
  clock w1 = clock w2 →
  List.filter (λ e, negb (is_map e)) (ui (run w1 g).2) =
    List.filter (λ e, negb (is_map e)) (ui (run w2 g).2) ∧
  gen (run w1 g).2 = gen (run w2 g).2 ∧
  main_table (run w1 g).1 = main_table (run w2 g).1.
Proof.
  intros Hsrv Hclock. rewrite !run_unfold. cbv zeta. rewrite Hsrv.
  destruct (server w2 URL) as [|code body]; [done|].
  destruct (code =? 200); [|done].
  destruct body as [datos|]; [|done].
  rewrite !dashboard_unfold. rewrite (cleaning_world datos w1 w2 _ Hclock).
  set (s_ok := {| gen := _; ui := _ |}).
  destruct (has_col "Magnitud" (pd_DataFrame datos)) eqn:Hmag.
  - destruct (cleaning_spec datos w2 s_ok Hmag) as (df & s1 & -> & Hhas & _).
    rewrite !after_cleaning_run by done. simpl.
    split; [|done]. unfold shown_by_rendering.
    rewrite !List.filter_app. simpl. done.
  - destruct (cleaning_raises datos w2 s_ok Hmag) as (s1 & ->). done.
Qed.

(** *** The whole page *)


End Properties.

(** * The statements on examples *)

Import Sample Examples.

(** Dates and numbers as the examples write them. *)
Example strftime_epoch : strftime 0 = "1970-01-01 00:00:00".
Proof. reflexivity. Qed.

Example strftime_2023 : strftime 1700000000123456 = "2023-11-14 22:13:20".
Proof. reflexivity. Qed.

Example strftime_leap : strftime (951782400 * 1000000) = "2000-02-29 00:00:00".
Proof. reflexivity. Qed.

Example read_decimal_45 : read_decimal "4.5" = Some (45 # 10)%Q.
Proof. reflexivity. Qed.

Example read_decimal_bad : read_decimal "n/d" = None.
Proof. reflexivity. Qed.

Example read_instant_2023 :
  read_instant "2023-11-14 22:13:20" = Some 1700000000000000.
Proof. reflexivity. Qed.

Example read_instant_bad : read_instant "ayer" = None.
Proof. reflexivity. Qed.







(** C6 as stated fails: the two records come newest first, and the sort of
    line 116 swaps them; the table at exit differs from the table rendering
    started with. *)
Lemma rendering_changes_the_row_order :
  ∃ σ0 s0 σ s',
    prepared_dos = (inr σ0, s0) ∧
    run (world 200 datos_dos None) 7 = (inr (Some σ), s') ∧
    labels (df_sismos σ0) = [0%nat; 1%nat] ∧
    labels (df_sismos σ) = [1%nat; 0%nat] ∧
    df_sismos σ ≠ df_sismos σ0.
Proof.
  eexists _, _, _, _. split; [vm_compute; reflexivity|].
  split; [vm_compute; reflexivity|].
  split; [vm_compute; reflexivity|]. split; [vm_compute; reflexivity|].
  intros Heq. apply (f_equal labels) in Heq. vm_compute in Heq. discriminate Heq.
Qed.

Lemma rendering_only_reorders_witness :
  server (world 200 datos_dos None) URL = Response 200 (Some datos_dos) ∧
  prepared_dos = (inr (tables prepared_dos), prepared_dos.2) ∧
  ∃ σ s',
    run (world 200 datos_dos None) 7 = (inr (Some σ), s') ∧
    sismos_filtrados σ = sismos_filtrados (tables prepared_dos) ∧
    columns (df_sismos σ) = columns (df_sismos (tables prepared_dos)) ∧
    Permutation (rows (df_sismos (tables prepared_dos))) (rows (df_sismos σ)) ∧
    Sorted by_fecha (rows (df_sismos σ)).
Proof.
  split; [reflexivity|]. split; [vm_compute; reflexivity|].
  apply (rendering_only_reorders (world 200 datos_dos None) 7 (Some datos_dos)
           (tables prepared_dos) prepared_dos.2).
  - reflexivity.
  - vm_compute; reflexivity.
Defined.

Lemma status_check_only_error_branch_witness :
  server (world 503 [] None) URL = Response 503 (Some []) ∧
  run (world 503 [] None) 7 =
    (inr None, {| gen := 7; ui := shown_first ++ [ev_get URL; ev_error msg_error] |}).
Proof.
  split; [reflexivity|].
  apply (status_check_only_error_branch (world 503 [] None) 7 503 (Some []) eq_refl).
  discriminate.
Defined.



(** * Further statements on examples *)

Lemma missing_magnitude_column_raises_witness :
  server (world 200 datos_sin_columna None) URL = Response 200 (Some datos_sin_columna) ∧
  (∀ m, m ∈ datos_sin_columna → m !! "Magnitud" = None) ∧
  ∃ g',
    run (world 200 datos_sin_columna None) 7 =
    (inl (KeyError "Magnitud"),
     {| gen := g';
        ui := shown_first ++ [ev_get URL; ev_text msg_ok] ++
              (if negb (has_col "lat" (pd_DataFrame datos_sin_columna)) ||
                  negb (has_col "lon" (pd_DataFrame datos_sin_columna))
               then [ev_warning msg_sin_coordenadas] else []) |}).
Proof.
  assert (∀ m, m ∈ datos_sin_columna → m !! "Magnitud" = None) as Hnone.
  { intros m Hm. apply list_elem_of_singleton in Hm as ->. reflexivity. }
  split; [reflexivity|]. split; [exact Hnone|].
  exact (missing_magnitude_column_raises (world 200 datos_sin_columna None) 7
           datos_sin_columna eq_refl Hnone).
Defined.

Lemma empty_response_raises_witness :
  server (world 200 [] None) URL = Response 200 (Some []) ∧
  run (world 200 [] None) 7 =
  (inl (KeyError "Magnitud"),
   {| gen := 7;
      ui := shown_first ++
            [ev_get URL; ev_text msg_ok; ev_warning msg_sin_coordenadas] |}).
Proof.
  split; [reflexivity|].
  exact (empty_response_raises (world 200 [] None) 7 eq_refl).
Defined.





Lemma raising_the_threshold_only_removes_witness :
  ∃ t1 σ1 s1' t2 σ2 s2',
    filtering tabla_limpia (world 200 [] None) s_nil = (inr (t1, σ1), s1') ∧
    filtering tabla_limpia (world 200 [] (Some 5%Q)) s_nil = (inr (t2, σ2), s2') ∧
    (t1 <= t2)%Q ∧
    rows (sismos_filtrados σ2) `sublist_of` rows (sismos_filtrados σ1) ∧
    rows (sismos_filtrados σ1) `sublist_of` rows tabla_limpia.
Proof.
  eexists _, _, _, _, _, _.
  split; [apply filtering_run|]. split; [apply filtering_run|].
  assert (slider_value 0 10 4 None <= slider_value 0 10 4 (Some 5%Q))%Q as Hle
    by (vm_compute; discriminate).
  split; [exact Hle|].
  exact (raising_the_threshold_only_removes tabla_limpia
           (world 200 [] None) (world 200 [] (Some 5%Q)) s_nil s_nil
           _ _ _ _ _ _ (filtering_run _ _ _) (filtering_run _ _ _) Hle).
Defined.


Lemma imputed_dates_are_at_least_a_day_old_witness :
  has_col "Fecha" (pd_DataFrame datos_solo_lat) = false ∧
  has_col "Magnitud" (pd_DataFrame datos_solo_lat) = true ∧
  ∃ df s' ts,
    cleaning datos_solo_lat (world 200 datos_solo_lat None) s_nil = (inr df, s') ∧
    col "Fecha" df = (λ t, Str (strftime t)) <$> ts ∧
    Forall (λ t, t ≤ 1700000000123456 - timedelta_days 1 ∧
                 (1700000000123456 - t) mod timedelta_days 1 = 0) ts.
Proof.
  split; [vm_compute; reflexivity|]. split; [vm_compute; reflexivity|].
  apply (imputed_dates_are_at_least_a_day_old datos_solo_lat
           (world 200 datos_solo_lat None) s_nil);
    vm_compute; reflexivity.
Defined.


Lemma slider_changes_only_the_map_witness :
  server (world 200 datos_dos None) URL = server (world 200 datos_dos (Some 6%Q)) URL ∧
  clock (world 200 datos_dos None) = clock (world 200 datos_dos (Some 6%Q)) ∧
  List.filter (λ e, negb (is_map e)) (ui (run (world 200 datos_dos None) 7).2) =
    List.filter (λ e, negb (is_map e)) (ui (run (world 200 datos_dos (Some 6%Q)) 7).2) ∧
  gen (run (world 200 datos_dos None) 7).2 = gen (run (world 200 datos_dos (Some 6%Q)) 7).2 ∧
  main_table (run (world 200 datos_dos None) 7).1 =
    main_table (run (world 200 datos_dos (Some 6%Q)) 7).1.
Proof.
  split; [reflexivity|]. split; [reflexivity|].
  exact (slider_changes_only_the_map (world 200 datos_dos None)
           (world 200 datos_dos (Some 6%Q)) 7 eq_refl eq_refl).
Defined.

